(** * GeoDataSourceViewModel: a shallow embedding of
      [src/ViewModels/GeoDataSourceViewModel.js]

    The view model of one data source of the catalogue: three observable
    flags ([isEnabled], [isShown], [isLegendVisible]), the two subscribers
    that react to changes of the first two, the legend getters and [zoomTo].

    Conventions of the embedding.
    - A JavaScript number that holds an angle is an IEEE 754 double, a
      primitive [float]: sums and differences round to nearest, ties to
      even, a comparison with NaN is false, and a decimal literal stands
      for the double nearest to it, as in the source.  A time stamp is an
      integer number of milliseconds ([Z]), which is what [Date.now()]
      returns.  A string is a sequence of 8-bit characters.
    - Rectangles are objects: they live in a heap and are named by
      references, so that a write through one reference is seen through
      every alias of it.
    - Everything the source does to its collaborators (the two engines, the
      "now viewing" list, analytics, the console) is appended to a trace.
      The collaborators are taken to return normally and to leave the view
      model alone.
    - A tracked property is a knockout observable: a write that changes the
      value runs the subscriber before the assignment returns, and a write of
      the value already held does nothing. *)

From Stdlib Require Import ZArith PrimFloat Bool List String Ascii Lia.
Import ListNotations.
Local Open Scope Z_scope.

#[local] Set Warnings "-inexact-float".

(** ** Numbers *)

Module Number.

(** [a < b] on doubles: false when either side is NaN. *)
Definition ltb (a b : float) : bool := PrimFloat.ltb a b.

(** [a > b] on doubles is [b < a]. *)
Definition gtb (a b : float) : bool := PrimFloat.ltb b a.

Arguments ltb : simpl never.
Arguments gtb : simpl never.

(** [x | 0]: the operand is brought to a signed 32-bit integer, wrapping
    modulo 2^32.  The operand here is already an integer. *)
Definition ToInt32 (z : Z) : Z := (z + 2 ^ 31) mod 2 ^ 32 - 2 ^ 31.

(** [((now - t) / 1000.0) | 0] for two integer time stamps: the quotient is
    cut towards zero, then wrapped to 32 bits. *)
Definition elapsedSeconds (now t : Z) : Z := ToInt32 (Z.quot (now - t) 1000).

(** Truthiness of a number that may be [undefined]: [undefined] and [0] are
    falsy. *)
Definition truthy (d : option Z) : bool :=
  match d with
  | Some t => negb (t =? 0)
  | None => false
  end.

(** Cesium's [defined(value)]: [value !== undefined]. *)
Definition defined {A : Type} (v : option A) : bool :=
  match v with
  | Some _ => true
  | None => false
  end.

End Number.

(** ** Rectangles and the heap they live in *)

Record Rectangle : Type := mkRectangle {
  west : float;
  south : float;
  east : float;
  north : float
}.

Definition loc : Type := positive.

Definition Heap : Type := loc -> Rectangle.

Definition store (h : Heap) (l : loc) (r : Rectangle) : Heap :=
  fun l' => if Pos.eqb l' l then r else h l'.

Module CesiumMath.

(** Modelled from the spec: [CesiumMath.EPSILON3] of the vendored Cesium
    (not under src/), the "small angular epsilon" of zoomTo: 0.001. *)
Definition EPSILON3 : float := 0.001.

(** Modelled from the spec: [Math.PI], the double 3.141592653589793, and
    [CesiumMath.PI_OVER_TWO], which Cesium defines as [Math.PI * 0.5]. *)
Definition PI : float := 3.141592653589793.

Definition PI_OVER_TWO : float := (PI * 0.5)%float.

End CesiumMath.

(** Modelled from the spec: [Rectangle.MAX_VALUE] of the vendored Cesium (not
    under src/), the whole-world rectangle the constructor installs: from
    -pi to pi in longitude and from -pi/2 to pi/2 in latitude. *)
Definition MAX_VALUE : Rectangle :=
  mkRectangle (- CesiumMath.PI)%float (- CesiumMath.PI_OVER_TWO)%float
              CesiumMath.PI CesiumMath.PI_OVER_TWO.

(** [new Rectangle()]: every bound defaults to 0. *)
Definition new_Rectangle : Rectangle := mkRectangle 0 0 0 0.

(** The module-level [var scratchRectangle = new Rectangle()] is one object,
    shared by every call of zoomTo; [Rectangle.MAX_VALUE] is another. *)
Definition scratchRectangle : loc := 1%positive.
Definition Rectangle_MAX_VALUE : loc := 2%positive.

Definition initialHeap : Heap :=
  store (fun _ => new_Rectangle) Rectangle_MAX_VALUE MAX_VALUE.

(** ** What the view model does to its collaborators *)

(** The optional last argument of an analytics event. *)
Inductive Duration : Type :=
  | undefined
  | seconds (n : Z).

Inductive Effect : Type :=
  | enableInCesium
  | disableInCesium
  | enableInLeaflet
  | disableInLeaflet
  | showInCesium
  | hideInCesium
  | showInLeaflet
  | hideInLeaflet
  | nowViewing_add
  | nowViewing_remove
    (** [ga('send', 'event', 'dataSource', action, label)], with a sixth
        argument when [value] is [Some _]. *)
  | ga (action label : string) (value : option Duration)
  | console_log (message : string)
    (** [scene.tweens.add(CameraFlightPath.createTweenRectangle(scene,
        {destination : rect}))], with the bounds [rect] holds at the call. *)
  | tweens_add (destination : Rectangle)
    (** [leafletMap.fitBounds(rectangleToLatLngBounds(rect))], likewise. *)
  | fitBounds (rect : Rectangle).

(** ** The view model *)

(** Of the context only whether each engine handle is defined matters. *)
Record GeoDataCatalogContext : Type := mkContext {
  cesiumScene : bool;
  leafletMap : bool
}.

Record GeoDataSourceViewModel : Type := mkViewModel {
  context : GeoDataCatalogContext;
  name : string;
  _enabledDate : option Z;
  _shownDate : option Z;
  rectangle : option loc;
  legendUrl : option string;
  dataUrlType : option string;
  dataUrl : option string;
  dataCustodian : string;
  metadataUrl : option string;
  isEnabled : bool;
  isShown : bool;
  isLegendVisible : bool
}.

(** The constructor; [context] and [name] come from GeoDataItemViewModel. *)
Definition new_GeoDataSourceViewModel
    (ctx : GeoDataCatalogContext) (nm : string) : GeoDataSourceViewModel :=
  {| context := ctx;
     name := nm;
     _enabledDate := None;
     _shownDate := None;
     rectangle := Some Rectangle_MAX_VALUE;
     legendUrl := None;
     dataUrlType := None;
     dataUrl := None;
     dataCustodian := "Unknown";
     metadataUrl := None;
     isEnabled := false;
     isShown := false;
     isLegendVisible := false |}.

Definition with_enabledDate (d : option Z) (v : GeoDataSourceViewModel) :=
  mkViewModel (context v) (name v) d (_shownDate v) (rectangle v)
    (legendUrl v) (dataUrlType v) (dataUrl v) (dataCustodian v)
    (metadataUrl v) (isEnabled v) (isShown v) (isLegendVisible v).

Definition with_shownDate (d : option Z) (v : GeoDataSourceViewModel) :=
  mkViewModel (context v) (name v) (_enabledDate v) d (rectangle v)
    (legendUrl v) (dataUrlType v) (dataUrl v) (dataCustodian v)
    (metadataUrl v) (isEnabled v) (isShown v) (isLegendVisible v).

Definition with_rectangle (r : option loc) (v : GeoDataSourceViewModel) :=
  mkViewModel (context v) (name v) (_enabledDate v) (_shownDate v) r
    (legendUrl v) (dataUrlType v) (dataUrl v) (dataCustodian v)
    (metadataUrl v) (isEnabled v) (isShown v) (isLegendVisible v).

Definition with_legendUrl (u : option string) (v : GeoDataSourceViewModel) :=
  mkViewModel (context v) (name v) (_enabledDate v) (_shownDate v)
    (rectangle v) u (dataUrlType v) (dataUrl v) (dataCustodian v)
    (metadataUrl v) (isEnabled v) (isShown v) (isLegendVisible v).

Definition with_isEnabled (b : bool) (v : GeoDataSourceViewModel) :=
  mkViewModel (context v) (name v) (_enabledDate v) (_shownDate v)
    (rectangle v) (legendUrl v) (dataUrlType v) (dataUrl v) (dataCustodian v)
    (metadataUrl v) b (isShown v) (isLegendVisible v).

Definition with_isShown (b : bool) (v : GeoDataSourceViewModel) :=
  mkViewModel (context v) (name v) (_enabledDate v) (_shownDate v)
    (rectangle v) (legendUrl v) (dataUrlType v) (dataUrl v) (dataCustodian v)
    (metadataUrl v) (isEnabled v) b (isLegendVisible v).

Definition with_isLegendVisible (b : bool) (v : GeoDataSourceViewModel) :=
  mkViewModel (context v) (name v) (_enabledDate v) (_shownDate v)
    (rectangle v) (legendUrl v) (dataUrlType v) (dataUrl v) (dataCustodian v)
    (metadataUrl v) (isEnabled v) (isShown v) b.

(** ** The world a method runs in *)

(** [self] is the view model ([this], [viewModel]); [heap] holds the
    rectangles; the [n]-th call of [Date.now()] returns [clock n], and
    [ticks] counts the calls made so far; [trace] lists the effects in the
    order they happened. *)
Record World : Type := mkWorld {
  self : GeoDataSourceViewModel;
  heap : Heap;
  clock : nat -> Z;
  ticks : nat;
  trace : list Effect
}.

Definition newWorld (ctx : GeoDataCatalogContext) (nm : string)
    (clk : nat -> Z) : World :=
  mkWorld (new_GeoDataSourceViewModel ctx nm) initialHeap clk 0 [].

(** A method is a state transformer over the world. *)
Definition M (A : Type) : Type := World -> A * World.

Definition ret {A : Type} (a : A) : M A := fun w => (a, w).

Definition bind {A B : Type} (m : M A) (k : A -> M B) : M B :=
  fun w => let (a, w') := m w in k a w'.

Declare Scope js_scope.
Delimit Scope js_scope with js.
Notation "x <- m ;; k" := (bind m (fun x => k))
  (at level 61, m at next level, right associativity) : js_scope.
Notation "m ;; k" := (bind m (fun _ => k))
  (at level 61, right associativity) : js_scope.
Local Open Scope js_scope.

Definition this : M GeoDataSourceViewModel := fun w => (self w, w).

Definition update (f : GeoDataSourceViewModel -> GeoDataSourceViewModel)
  : M unit :=
  fun w => (tt, mkWorld (f (self w)) (heap w) (clock w) (ticks w) (trace w)).

Definition emit (e : Effect) : M unit :=
  fun w => (tt, mkWorld (self w) (heap w) (clock w) (ticks w) (trace w ++ [e])).

Definition Date_now : M Z :=
  fun w => (clock w (ticks w),
            mkWorld (self w) (heap w) (clock w) (S (ticks w)) (trace w)).

Definition load (l : loc) : M Rectangle := fun w => (heap w l, w).

Definition modify (l : loc) (f : Rectangle -> Rectangle) : M unit :=
  fun w => (tt, mkWorld (self w) (store (heap w) l (f (heap w l)))
                        (clock w) (ticks w) (trace w)).

Definition when (b : bool) (m : M unit) : M unit := if b then m else ret tt.

Definition exec {A : Type} (m : M A) (w : World) : World := snd (m w).
Definition result {A : Type} (m : M A) (w : World) : A := fst (m w).

(** ** The regular expression [/[.\/](png|jpg|jpeg|gif)/i] *)

Module RegExp.

Local Open Scope char_scope.

(** Case folding of the [i] flag: a character is compared through its
    upper-case form, which moves only the letters a-z among the first 128
    characters and never maps a later character onto one of them. *)
Definition Canonicalize (c : ascii) : ascii :=
  let n := nat_of_ascii c in
  if (Nat.leb 97 n && Nat.leb n 122)%bool then ascii_of_nat (n - 32) else c.

Definition sameChar (a b : ascii) : bool :=
  Ascii.eqb (Canonicalize a) (Canonicalize b).

(** A literal at the start of [s]: the text of [s] it matches, some
    spelling of [p] in upper and lower case. *)
Fixpoint literal (p s : string) : option string :=
  match p with
  | EmptyString => Some EmptyString
  | String a p' =>
      match s with
      | EmptyString => None
      | String b s' =>
          if sameChar a b
          then option_map (String b) (literal p' s')
          else None
      end
  end.

(** The group [(png|jpg|jpeg|gif)]: the alternatives are tried in the order
    they are written. *)
Definition alternatives : list string :=
  ["png"%string; "jpg"%string; "jpeg"%string; "gif"%string].

Fixpoint firstOf (ps : list string) (s : string) : option string :=
  match ps with
  | [] => None
  | p :: ps' =>
      match literal p s with
      | Some g => Some g
      | None => firstOf ps' s
      end
  end.

(** The class [[.\/]]. *)
Definition separator (c : ascii) : bool :=
  (Ascii.eqb c "." || Ascii.eqb c "/")%bool.

(** The whole pattern at the start of [s]: the matched text and the text
    of the group. *)
Definition matchHere (s : string) : option (list string) :=
  match s with
  | EmptyString => None
  | String c rest =>
      if separator c
      then option_map (fun g => [String c g; g]) (firstOf alternatives rest)
      else None
  end.

(** [s.match(imageUrlRegex)]: the leftmost match, or [null]. *)
Fixpoint exec (s : string) : option (list string) :=
  match matchHere s with
  | Some m => Some m
  | None =>
      match s with
      | EmptyString => None
      | String _ rest => exec rest
      end
  end.

End RegExp.

Definition imageUrlRegex : string -> option (list string) := RegExp.exec.

(** ** The getters *)

Definition supportsReordering (v : GeoDataSourceViewModel) : bool := false.

Definition supportsOpacity (v : GeoDataSourceViewModel) : bool := false.

Definition hasLegend (v : GeoDataSourceViewModel) : bool :=
  match legendUrl v with
  | Some url => Nat.ltb 0 (String.length url)
  | None => false
  end.

(** What the getter [legendIsImage] returns: [false] from the guard, or else
    whatever [match] returns, an array or [null]. *)
Inductive MatchValue : Type :=
  | JSfalse
  | JSmatch (m : option (list string)).

(** An array is truthy; [false] and [null] are not. *)
Definition truthy (v : MatchValue) : bool :=
  match v with
  | JSfalse => false
  | JSmatch None => false
  | JSmatch (Some _) => true
  end.

Definition legendIsImage (v : GeoDataSourceViewModel) : MatchValue :=
  match legendUrl v with
  | None => JSfalse
  | Some url =>
      if Nat.eqb (String.length url) 0 then JSfalse
      else JSmatch (imageUrlRegex url)
  end.

(** ** The subscribers of the observables *)

(** The engine hooks ([enableInCesium] and the like) belong to the subtypes
    and the "now viewing" list to the context: they are taken to act on
    their own side only, and appear here as entries of the trace. *)

Definition isShownChanged : M unit :=
  viewModel <- this ;;
  let context := context viewModel in
  when (cesiumScene context)
    (if isShown viewModel then emit showInCesium else emit hideInCesium) ;;
  when (leafletMap context)
    (if isShown viewModel then emit showInLeaflet else emit hideInLeaflet) ;;
  if isShown viewModel then
    emit (ga "shown" (name viewModel) None) ;;
    now <- Date_now ;;
    update (with_shownDate (Some now))
  else
    duration <-
      match _shownDate viewModel with
      | Some shown =>
          now <- Date_now ;;
          ret (seconds (Number.elapsedSeconds now shown))
      | None =>
          if Number.truthy (_enabledDate viewModel) then
            match _enabledDate viewModel with
            | Some enabled =>
                now <- Date_now ;;
                ret (seconds (Number.elapsedSeconds now enabled))
            | None => ret undefined
            end
          else ret undefined
      end ;;
    emit (ga "hidden" (name viewModel) (Some duration)).

(** Assignment to the tracked property [isShown]: the observable notifies its
    subscriber when the value written differs from the one held. *)
Definition set_isShown (b : bool) : M unit :=
  viewModel <- this ;;
  if Bool.eqb (isShown viewModel) b then ret tt
  else update (with_isShown b) ;; isShownChanged.

Definition isEnabledChanged : M unit :=
  viewModel <- this ;;
  let context := context viewModel in
  when (cesiumScene context)
    (if isEnabled viewModel then emit enableInCesium
     else emit disableInCesium) ;;
  when (leafletMap context)
    (if isEnabled viewModel then emit enableInLeaflet
     else emit disableInLeaflet) ;;
  when (isEnabled viewModel && negb (isShown viewModel))
    (set_isShown true) ;;
  viewModel <- this ;;
  if isEnabled viewModel then
    emit nowViewing_add ;;
    emit (ga "added" (name viewModel) None) ;;
    now <- Date_now ;;
    update (with_enabledDate (Some now))
  else
    emit nowViewing_remove ;;
    duration <-
      (if Number.truthy (_enabledDate viewModel) then
         match _enabledDate viewModel with
         | Some enabled =>
             now <- Date_now ;;
             ret (seconds (Number.elapsedSeconds now enabled))
         | None => ret undefined
         end
       else ret undefined) ;;
    emit (ga "removed" (name viewModel) (Some duration)).

Definition set_isEnabled (b : bool) : M unit :=
  viewModel <- this ;;
  if Bool.eqb (isEnabled viewModel) b then ret tt
  else update (with_isEnabled b) ;; isEnabledChanged.

(** [isLegendVisible] is tracked, with no subscriber. *)
Definition set_isLegendVisible (b : bool) : M unit :=
  update (with_isLegendVisible b).

(** ** The methods *)

Definition toggleEnabled : M bool :=
  viewModel <- this ;;
  set_isEnabled (negb (isEnabled viewModel)) ;;
  viewModel' <- this ;;
  ret (isEnabled viewModel').

Definition toggleShown : M bool :=
  viewModel <- this ;;
  set_isShown (negb (isShown viewModel)) ;;
  viewModel' <- this ;;
  ret (isShown viewModel').

Definition toggleLegendVisible : M bool :=
  viewModel <- this ;;
  set_isLegendVisible (negb (isLegendVisible viewModel)) ;;
  viewModel' <- this ;;
  ret (isLegendVisible viewModel').

(** Modelled from the spec: [Rectangle.clone(rectangle, result)] of the
    vendored Cesium (not under src/), called with both arguments defined:
    the four bounds of [rectangle] are copied into the object [result], and
    [result] is returned. *)
Definition Rectangle_clone (rectangle result : loc) : M loc :=
  r <- load rectangle ;;
  modify result (fun _ => r) ;;
  ret result.

(** [rect.east += epsilon] and the like: the sum or difference is rounded
    to a double. *)
Definition add_east (d : float) (r : Rectangle) : Rectangle :=
  mkRectangle (west r) (south r) (east r + d)%float (north r).
Definition sub_west (d : float) (r : Rectangle) : Rectangle :=
  mkRectangle (west r - d)%float (south r) (east r) (north r).
Definition add_north (d : float) (r : Rectangle) : Rectangle :=
  mkRectangle (west r) (south r) (east r) (north r + d)%float.
Definition sub_south (d : float) (r : Rectangle) : Rectangle :=
  mkRectangle (west r) (south r - d)%float (east r) (north r).

Definition tooWide : string :=
  "Extent is wider than half the world.  Ignoring zoomto".

Definition zoomTo : M unit :=
  viewModel <- this ;;
  if (negb (isEnabled viewModel) || negb (isShown viewModel)
      || negb (Number.defined (rectangle viewModel)))%bool
  then ret tt
  else
    match rectangle viewModel with
    | None => ret tt
    | Some rectangle =>
        bounds <- load rectangle ;;
        if Number.gtb (east bounds - west bounds)%float 3.14 then
          emit (console_log tooWide)
        else
          emit (ga "zoomTo" (name viewModel) None) ;;
          let epsilon := CesiumMath.EPSILON3 in
          rect <- Rectangle_clone rectangle scratchRectangle ;;
          r <- load rect ;;
          when (Number.ltb (east r - west r)%float epsilon)
            (modify rect (add_east epsilon) ;;
             modify rect (sub_west epsilon)) ;;
          r <- load rect ;;
          when (Number.ltb (north r - south r)%float epsilon)
            (modify rect (add_north epsilon) ;;
             modify rect (sub_south epsilon)) ;;
          let context := context viewModel in
          when (cesiumScene context)
            (r <- load rect ;; emit (tweens_add r)) ;;
          when (leafletMap context)
            (r <- load rect ;; emit (fitBounds r))
    end.

(** ** Sequences of calls on a view model whose rectangle is left alone *)

(** What a client does with the view model, short of assigning [rectangle]:
    it calls a method or writes one of the tracked flags or the legend URL. *)
Inductive Call : Type :=
  | call_toggleEnabled
  | call_toggleShown
  | call_toggleLegendVisible
  | call_zoomTo
  | assign_isEnabled (b : bool)
  | assign_isShown (b : bool)
  | assign_isLegendVisible (b : bool)
  | assign_legendUrl (u : option string).

Definition perform (c : Call) : World -> World :=
  match c with
  | call_toggleEnabled => exec toggleEnabled
  | call_toggleShown => exec toggleShown
  | call_toggleLegendVisible => exec toggleLegendVisible
  | call_zoomTo => exec zoomTo
  | assign_isEnabled b => exec (set_isEnabled b)
  | assign_isShown b => exec (set_isShown b)
  | assign_isLegendVisible b => exec (set_isLegendVisible b)
  | assign_legendUrl u => exec (update (with_legendUrl u))
  end.

Definition run (calls : list Call) (w : World) : World :=
  fold_left (fun w c => perform c w) calls w.

(** A camera flight or a fit of the map's bounds. *)
Definition isFlight (e : Effect) : bool :=
  match e with
  | tweens_add _ | fitBounds _ => true
  | _ => false
  end.

(** ** Vocabulary of the properties *)

(** [east - west] and [north - south], as the source computes them. *)
Definition width (r : Rectangle) : float := (east r - west r)%float.
Definition height (r : Rectangle) : float := (north r - south r)%float.

(** A world with the rectangle [r] at a fresh reference, enabled and
    shown. *)
Definition shownWith (ctx : GeoDataCatalogContext) (r : Rectangle) : World :=
  let w := exec toggleEnabled (newWorld ctx "roads" (fun _ => 7)) in
  mkWorld (with_rectangle (Some 3%positive) (self w))
          (store (heap w) 3%positive r) (clock w) (ticks w) [].

(** The rectangle is the constructor's, the object [Rectangle.MAX_VALUE]
    still holds the whole world, and no flight was started so far. *)
Definition untouched (w : World) : Prop :=
  rectangle (self w) = Some Rectangle_MAX_VALUE
  /\ heap w Rectangle_MAX_VALUE = MAX_VALUE
  /\ existsb isFlight (trace w) = false.

(** What a write of a flag leaves alone: the rectangle, the heap and the
    clock; and it starts no flight. *)
Definition leaves_rectangle (w w' : World) : Prop :=
  rectangle (self w') = rectangle (self w)
  /\ heap w' = heap w
  /\ clock w' = clock w
  /\ existsb isFlight (trace w') = existsb isFlight (trace w).



(** The time stamps of a view model built by the constructor and then driven
    through its methods are readings of the clock: when the clock never
    reads 0, as after 1970, neither time stamp is 0; and a view model that
    is shown has its [_shownDate] set. *)
Definition stamped (w : World) : Prop :=
  (forall n, clock w n <> 0) ->
  _enabledDate (self w) <> Some 0
  /\ _shownDate (self w) <> Some 0
  /\ (isShown (self w) = true -> _shownDate (self w) <> None).

(** ** The legend, as the specification reads it *)

Module Legend.

Import RegExp.
Local Open Scope string_scope.

(** A string in upper case, character by character. *)
Fixpoint fold (s : string) : string :=
  match s with
  | EmptyString => EmptyString
  | String c s' => String (Canonicalize c) (fold s')
  end.

(** [p] occurs somewhere in [s], in any mix of upper and lower case. *)
Fixpoint occurs (p s : string) : bool :=
  match literal p s with
  | Some _ => true
  | None =>
      match s with
      | EmptyString => false
      | String _ s' => occurs p s'
      end
  end.

(** The reading of the specification: the legend is an image when its URL
    is defined and carries one of the file extensions [.png], [.jpg],
    [.jpeg], [.gif], in any mix of upper and lower case. *)
Definition hasImageExtension (legendUrl : option string) : bool :=
  match legendUrl with
  | None => false
  | Some url => existsb (fun ext => occurs ("." ++ ext) url) alternatives
  end.

(** What the regular expression looks for: a dot or a slash, and right
    after it one of the four words, in any mix of upper and lower case. *)
Definition hasImageWord (url : string) : Prop :=
  exists pre c word post p,
    url = pre ++ String c (word ++ post)
    /\ (c = "."%char \/ c = "/"%char)
    /\ In p alternatives
    /\ fold word = fold p.

End Legend.

(** ** Vocabulary of the further properties *)

(** What the collaborators hold after the effects of a trace: whether the
    item is in the "now viewing" list, and whether each engine has it enabled
    and shown. *)
Record Collaborators : Type := mkCollaborators {
  inNowViewing : bool;
  enabledInCesium : bool;
  shownInCesium : bool;
  enabledInLeaflet : bool;
  shownInLeaflet : bool
}.

Definition observe (c : Collaborators) (e : Effect) : Collaborators :=
  match e with
  | enableInCesium =>
      mkCollaborators (inNowViewing c) true (shownInCesium c)
        (enabledInLeaflet c) (shownInLeaflet c)
  | disableInCesium =>
      mkCollaborators (inNowViewing c) false (shownInCesium c)
        (enabledInLeaflet c) (shownInLeaflet c)
  | enableInLeaflet =>
      mkCollaborators (inNowViewing c) (enabledInCesium c) (shownInCesium c)
        true (shownInLeaflet c)
  | disableInLeaflet =>
      mkCollaborators (inNowViewing c) (enabledInCesium c) (shownInCesium c)
        false (shownInLeaflet c)
  | showInCesium =>
      mkCollaborators (inNowViewing c) (enabledInCesium c) true
        (enabledInLeaflet c) (shownInLeaflet c)
  | hideInCesium =>
      mkCollaborators (inNowViewing c) (enabledInCesium c) false
        (enabledInLeaflet c) (shownInLeaflet c)
  | showInLeaflet =>
      mkCollaborators (inNowViewing c) (enabledInCesium c) (shownInCesium c)
        (enabledInLeaflet c) true
  | hideInLeaflet =>
      mkCollaborators (inNowViewing c) (enabledInCesium c) (shownInCesium c)
        (enabledInLeaflet c) false
  | nowViewing_add =>
      mkCollaborators true (enabledInCesium c) (shownInCesium c)
        (enabledInLeaflet c) (shownInLeaflet c)
  | nowViewing_remove =>
      mkCollaborators false (enabledInCesium c) (shownInCesium c)
        (enabledInLeaflet c) (shownInLeaflet c)
  | _ => c
  end.

Definition replay (tr : list Effect) : Collaborators :=
  fold_left observe tr (mkCollaborators false false false false false).

(** The flags of the view model and what the collaborators hold agree: the
    item is listed exactly when enabled, and an engine that is present has it
    enabled and shown exactly as the flags say; an engine that is absent was
    never called. *)
Definition inStep (ctx : GeoDataCatalogContext) (w : World) : Prop :=
  context (self w) = ctx
  /\ inNowViewing (replay (trace w)) = isEnabled (self w)
  /\ enabledInCesium (replay (trace w))
     = (cesiumScene ctx && isEnabled (self w))%bool
  /\ shownInCesium (replay (trace w))
     = (cesiumScene ctx && isShown (self w))%bool
  /\ enabledInLeaflet (replay (trace w))
     = (leafletMap ctx && isEnabled (self w))%bool
  /\ shownInLeaflet (replay (trace w))
     = (leafletMap ctx && isShown (self w))%bool.

(** The calls made on the 3D scene or on a hook that is for it, and those
    made on the 2D map or on a hook that is for it. *)
Definition onCesium (e : Effect) : bool :=
  match e with
  | enableInCesium | disableInCesium | showInCesium | hideInCesium
  | tweens_add _ => true
  | _ => false
  end.

Definition onLeaflet (e : Effect) : bool :=
  match e with
  | enableInLeaflet | disableInLeaflet | showInLeaflet | hideInLeaflet
  | fitBounds _ => true
  | _ => false
  end.

(** An engine that is absent from the context has not been called. *)
Definition absentUnused (ctx : GeoDataCatalogContext) (w : World) : Prop :=
  context (self w) = ctx
  /\ (if cesiumScene ctx then True
      else existsb onCesium (trace w) = false)
  /\ (if leafletMap ctx then True
      else existsb onLeaflet (trace w) = false).

(** A flag that is up has its time stamp. *)
Definition stampsSet (w : World) : Prop :=
  implb (isShown (self w)) (Number.defined (_shownDate (self w))) = true
  /\ implb (isEnabled (self w)) (Number.defined (_enabledDate (self w)))
     = true.

(** Lines 212-220 of zoomTo as a function of the bounds copied into the
    scratch rectangle. *)
Definition padded (r : Rectangle) : Rectangle :=
  let epsilon := CesiumMath.EPSILON3 in
  let r1 :=
    if Number.ltb (east r - west r)%float epsilon
    then sub_west epsilon (add_east epsilon r) else r in
  if Number.ltb (north r1 - south r1)%float epsilon
  then sub_south epsilon (add_north epsilon r1) else r1.

(** The calls zoomTo makes on the engines that are present. *)
Definition flights (ctx : GeoDataCatalogContext) (d : Rectangle)
  : list Effect :=
  (if cesiumScene ctx then [tweens_add d] else [])
  ++ (if leafletMap ctx then [fitBounds d] else []).

(** The hooks a change of [isShown] calls, and those a change of
    [isEnabled] calls. *)
Definition shownHooks (ctx : GeoDataCatalogContext) (b : bool)
  : list Effect :=
  (if cesiumScene ctx
   then [if b then showInCesium else hideInCesium] else [])
  ++ (if leafletMap ctx
      then [if b then showInLeaflet else hideInLeaflet] else []).

Definition enabledHooks (ctx : GeoDataCatalogContext) (b : bool)
  : list Effect :=
  (if cesiumScene ctx
   then [if b then enableInCesium else disableInCesium] else [])
  ++ (if leafletMap ctx
      then [if b then enableInLeaflet else disableInLeaflet] else []).

(** * Properties *)

(** ** Tools *)

Ltac unfold_methods :=
  cbv beta iota zeta delta
    [exec result toggleEnabled toggleShown toggleLegendVisible
     set_isEnabled set_isShown set_isLegendVisible isEnabledChanged
     isShownChanged zoomTo Rectangle_clone when bind ret this update
     emit Date_now load modify fst snd
     with_enabledDate with_shownDate with_isEnabled with_isShown
     with_isLegendVisible with_legendUrl with_rectangle
     self heap clock ticks trace
     context name _enabledDate _shownDate rectangle legendUrl dataUrlType
     dataUrl dataCustodian metadataUrl isEnabled isShown isLegendVisible
     Bool.eqb negb andb orb Number.defined] in *.

Ltac open_world w :=
  let v := fresh "v" in
  let c := fresh "c" in
  destruct w as [v ? ? ? ?]; destruct v as [c ? ? ? ? ? ? ? ? ? ? ? ?];
  destruct c as [[|] [|]]; cbn [self heap clock ticks trace
    context name _enabledDate _shownDate rectangle legendUrl dataUrlType
    dataUrl dataCustodian metadataUrl isEnabled isShown isLegendVisible] in *.

Lemma store_same (h : Heap) (l : loc) (r : Rectangle) : store h l r l = r.
Proof. unfold store. now rewrite Pos.eqb_refl. Qed.

Lemma store_other (h : Heap) (l l' : loc) (r : Rectangle) :
  l' <> l -> store h l r l' = h l'.
Proof.
  intro H. unfold store. destruct (Pos.eqb_spec l' l); congruence.
Qed.

(** ** The enabled flag *)

(** C1: when [isEnabled] goes from false to true, by assignment or by
    [toggleEnabled], [isShown] is true afterwards, whether it was false (it
    is then set) or already true (it then stays), and [isEnabled] is true. *)
Theorem enabling_shows (w : World) :
  isEnabled (self w) = false ->
  isShown (self (exec (set_isEnabled true) w)) = true
  /\ isEnabled (self (exec (set_isEnabled true) w)) = true
  /\ isShown (self (exec toggleEnabled w)) = true
  /\ isEnabled (self (exec toggleEnabled w)) = true.
Proof.
  intro H; open_world w; subst; unfold_methods; cbn;
    destruct isShown0; cbn; repeat split; reflexivity.
Qed.

Lemma enabling_shows_witness :
  let w := newWorld (mkContext true false) "roads" (fun n => 1000 + Z.of_nat n)
  in isEnabled (self w) = false
     /\ isShown (self w) = false
     /\ isShown (self (exec toggleEnabled w)) = true.
Proof.
  cbv zeta. split; [reflexivity | split; [reflexivity |]].
  apply (enabling_shows
           (newWorld (mkContext true false) "roads"
                     (fun n => 1000 + Z.of_nat n))).
  reflexivity.
Defined.

(** C2: when [isEnabled] goes from true to false while [isShown] is true,
    [isShown] is not written: the view model ends up shown and not enabled,
    no hide hook is called and no "hidden" event is sent. *)
Theorem disabling_keeps_shown (w : World) :
  isEnabled (self w) = true ->
  isShown (self w) = true ->
  let w' := exec (set_isEnabled false) w in
  isShown (self w') = true
  /\ isEnabled (self w') = false
  /\ _shownDate (self w') = _shownDate (self w)
  /\ exec toggleEnabled w = w'
  /\ exists duration,
       trace w' =
         trace w
         ++ (if cesiumScene (context (self w)) then [disableInCesium] else [])
         ++ (if leafletMap (context (self w)) then [disableInLeaflet] else [])
         ++ [nowViewing_remove;
             ga "removed" (name (self w)) (Some duration)].
Proof.
  intros He Hs. open_world w; subst; unfold_methods; cbn;
    destruct (Number.truthy _enabledDate0) eqn:Ht;
    try destruct _enabledDate0; cbn;
    repeat split; try reflexivity; eexists;
    rewrite <- ?app_assoc; reflexivity.
Qed.

Lemma disabling_keeps_shown_witness :
  let w := exec toggleEnabled
             (newWorld (mkContext true true) "roads"
                       (fun n => 5000 * Z.of_nat n)) in
  let w' := exec (set_isEnabled false) w in
  isShown (self w') = true
  /\ isEnabled (self w') = false
  /\ trace w' = trace w ++ [disableInCesium; disableInLeaflet;
                            nowViewing_remove;
                            ga "removed" "roads" (Some (seconds 5))].
Proof.
  cbv zeta.
  pose proof (disabling_keeps_shown
                (exec toggleEnabled
                   (newWorld (mkContext true true) "roads"
                             (fun n => 5000 * Z.of_nat n)))
                eq_refl eq_refl) as H.
  cbv zeta in H. destruct H as (Hs & He & _).
  split; [exact Hs | split; [exact He | reflexivity]].
Defined.

Lemma toggleEnabled_exec (w : World) :
  exec toggleEnabled w = exec (set_isEnabled (negb (isEnabled (self w)))) w.
Proof.
  unfold toggleEnabled, exec, bind, this, ret.
  destruct (set_isEnabled (negb (isEnabled (self w))) w). reflexivity.
Qed.

Lemma toggleEnabled_result (w : World) :
  result toggleEnabled w = isEnabled (self (exec toggleEnabled w)).
Proof.
  unfold toggleEnabled, exec, result, bind, this, ret.
  destruct (set_isEnabled (negb (isEnabled (self w))) w). reflexivity.
Qed.

Lemma set_isEnabled_isEnabled (b : bool) (w : World) :
  isEnabled (self (exec (set_isEnabled b) w)) = b.
Proof.
  open_world w; unfold_methods; cbn;
    destruct b, isEnabled0, isShown0; cbn; try reflexivity;
    destruct _enabledDate0 as [z |]; cbn; try reflexivity;
    destruct (z =? 0); reflexivity.
Qed.

(** C8: one call of [toggleEnabled] flips [isEnabled] and returns the new
    value; a second call returns the value [isEnabled] had at the start and
    leaves [isEnabled] at that value. *)
Theorem toggleEnabled_twice (w : World) :
  let w1 := exec toggleEnabled w in
  let w2 := exec toggleEnabled w1 in
  result toggleEnabled w = negb (isEnabled (self w))
  /\ isEnabled (self w1) = negb (isEnabled (self w))
  /\ result toggleEnabled w1 = isEnabled (self w)
  /\ isEnabled (self w2) = isEnabled (self w).
Proof.
  cbv zeta.
  assert (H1 : isEnabled (self (exec toggleEnabled w))
               = negb (isEnabled (self w))).
  { rewrite toggleEnabled_exec. apply set_isEnabled_isEnabled. }
  assert (H2 : isEnabled (self (exec toggleEnabled (exec toggleEnabled w)))
               = isEnabled (self w)).
  { rewrite (toggleEnabled_exec (exec toggleEnabled w)).
    rewrite set_isEnabled_isEnabled, H1. apply negb_involutive. }
  rewrite !toggleEnabled_result. auto.
Qed.

(** ** zoomTo *)

(** The first guard of [zoomTo]. *)
Lemma zoomTo_guarded (w : World) :
  isEnabled (self w) = false \/ isShown (self w) = false
  \/ rectangle (self w) = None ->
  zoomTo w = (tt, w).
Proof.
  intro H. unfold zoomTo, bind, this, ret.
  destruct (isEnabled (self w)), (isShown (self w)),
    (rectangle (self w)); cbn; try reflexivity.
  destruct H as [H | [H | H]]; discriminate.
Qed.

(** The second guard of [zoomTo]. *)
Lemma zoomTo_wide (w : World) (l : loc) :
  isEnabled (self w) = true ->
  isShown (self w) = true ->
  rectangle (self w) = Some l ->
  Number.gtb (width (heap w l)) 3.14 = true ->
  zoomTo w =
    (tt, mkWorld (self w) (heap w) (clock w) (ticks w)
                 (trace w ++ [console_log tooWide])).
Proof.
  intros He Hs Hr Hw. unfold zoomTo, bind, this, ret, load, emit.
  rewrite He, Hs, Hr. cbn.
  unfold width in Hw. rewrite Hw. reflexivity.
Qed.

(** C4: when the view model is not enabled, or not shown, or has no
    rectangle, [zoomTo] returns normally and leaves the whole world as it
    was: no field, no rectangle, no clock reading and no entry of the trace
    changes, so no engine is called and no analytics event is sent. *)
Theorem zoomTo_guard_noop (w : World) :
  isEnabled (self w) = false \/ isShown (self w) = false
  \/ rectangle (self w) = None ->
  zoomTo w = (tt, w).
Proof. exact (zoomTo_guarded w). Qed.

Lemma zoomTo_guard_noop_witness :
  let w := newWorld (mkContext true true) "roads" (fun _ => 7) in
  isEnabled (self w) = false /\ zoomTo w = (tt, w).
Proof.
  cbv zeta. split; [reflexivity |].
  apply (zoomTo_guard_noop (newWorld (mkContext true true) "roads"
                                     (fun _ => 7))).
  left. reflexivity.
Defined.

(** C3: on an enabled and shown view model whose rectangle has
    [east - west > 3.14], the difference and the comparison being those of
    doubles as on line 201, [zoomTo] logs one message on the console and
    returns: nothing else is added to the trace (no camera flight, no fit of
    bounds, no "zoomTo" event) and nothing else changes. *)
Theorem zoomTo_refuses_wide (w : World) (l : loc) :
  isEnabled (self w) = true ->
  isShown (self w) = true ->
  rectangle (self w) = Some l ->
  Number.gtb (east (heap w l) - west (heap w l))%float 3.14 = true ->
  zoomTo w =
    (tt, mkWorld (self w) (heap w) (clock w) (ticks w)
                 (trace w ++ [console_log tooWide])).
Proof. exact (zoomTo_wide w l). Qed.

Lemma zoomTo_refuses_wide_witness :
  trace (exec zoomTo (shownWith (mkContext true true)
                                (mkRectangle (-2) 0 2 1)))
  = [console_log tooWide].
Proof.
  unfold exec.
  rewrite (zoomTo_refuses_wide
             (shownWith (mkContext true true) (mkRectangle (-2) 0 2 1))
             3%positive eq_refl eq_refl eq_refl).
  - reflexivity.
  - reflexivity.
Defined.

(** [zoomTo] never touches the view model itself, and of the heap it writes
    the scratch rectangle only. *)
Lemma zoomTo_frame (w : World) :
  self (exec zoomTo w) = self w
  /\ clock (exec zoomTo w) = clock w
  /\ ticks (exec zoomTo w) = ticks w
  /\ forall l, l <> scratchRectangle -> heap (exec zoomTo w) l = heap w l.
Proof.
  open_world w; unfold_methods;
    destruct isEnabled0, isShown0, rectangle0 as [l0 |]; cbn;
    try (repeat split; reflexivity);
    destruct (Number.gtb _ _); cbn; try (repeat split; reflexivity);
    destruct (Number.ltb _ _); cbn;
    destruct (Number.ltb _ _); cbn;
    repeat split; try reflexivity; intros l Hl;
    rewrite ?store_other by exact Hl; reflexivity.
Qed.

(** C9: [zoomTo] pads a copy.  The reference held by the [rectangle] field is
    the same after the call, and the rectangle it names, which is an object
    other than the module's private scratch rectangle, has the bounds it had
    before. *)
Theorem zoomTo_keeps_rectangle (w : World) (l : loc) :
  rectangle (self w) = Some l ->
  l <> scratchRectangle ->
  rectangle (self (exec zoomTo w)) = Some l
  /\ heap (exec zoomTo w) l = heap w l.
Proof.
  intros Hr Hl. destruct (zoomTo_frame w) as (Hs & _ & _ & Hh).
  rewrite Hs. split; [exact Hr | apply Hh, Hl].
Qed.

Lemma zoomTo_keeps_rectangle_witness :
  let w := shownWith (mkContext true true) (mkRectangle 1 1 1 1) in
  heap (exec zoomTo w) scratchRectangle
    = mkRectangle (1 - 0.001)%float (1 - 0.001)%float
                  (1 + 0.001)%float (1 + 0.001)%float
  /\ rectangle (self (exec zoomTo w)) = Some 3%positive
  /\ heap (exec zoomTo w) 3%positive = mkRectangle 1 1 1 1.
Proof.
  cbv zeta. split; [reflexivity |].
  apply (zoomTo_keeps_rectangle
           (shownWith (mkContext true true) (mkRectangle 1 1 1 1))
           3%positive).
  - reflexivity.
  - discriminate.
Defined.

(** What [zoomTo] does past both guards: the scratch rectangle ends up
    holding the bounds of the rectangle, each dimension padded or not as its
    own test says, and it is this rectangle that the engines receive. *)
Lemma zoomTo_padding (w : World) (l : loc) :
  isEnabled (self w) = true ->
  isShown (self w) = true ->
  rectangle (self w) = Some l ->
  Number.gtb (width (heap w l)) 3.14 = false ->
  let r := heap w l in
  let epsilon := CesiumMath.EPSILON3 in
  let w' := exec zoomTo w in
  let destination := heap w' scratchRectangle in
  trace w' =
    trace w
    ++ [ga "zoomTo" (name (self w)) None]
    ++ (if cesiumScene (context (self w))
        then [tweens_add destination] else [])
    ++ (if leafletMap (context (self w))
        then [fitBounds destination] else [])
  /\ (Number.ltb (width r) epsilon = true ->
      east destination = (east r + epsilon)%float
      /\ west destination = (west r - epsilon)%float)
  /\ (Number.ltb (width r) epsilon = false ->
      east destination = east r /\ west destination = west r)
  /\ (Number.ltb (height r) epsilon = true ->
      north destination = (north r + epsilon)%float
      /\ south destination = (south r - epsilon)%float)
  /\ (Number.ltb (height r) epsilon = false ->
      north destination = north r /\ south destination = south r).
Proof.
  intros He Hs Hr Hw. unfold width in Hw. unfold width, height.
  open_world w; subst; unfold_methods;
    rewrite Hw; cbn; rewrite ?store_same; cbn;
    set (r := heap0 l) in *;
    destruct (Number.ltb (east r - west r) CesiumMath.EPSILON3) eqn:Hx;
    cbn; rewrite ?store_same; cbn;
    destruct (Number.ltb (north r - south r) CesiumMath.EPSILON3) eqn:Hy;
    cbn; rewrite ?store_same; cbn;
    rewrite <- ?app_assoc; cbn;
    (split; [reflexivity |]);
    repeat split; try reflexivity; discriminate.
Qed.

(** C5, as the code has it: on a rectangle that passes the guards of
    [zoomTo], the destination handed to the engines is the scratch rectangle
    after padding.  A dimension whose difference of bounds, computed in
    doubles, is below EPSILON3 has its upper bound replaced by the double
    nearest to upper + epsilon and its lower bound by the double nearest to
    lower - epsilon; a dimension whose difference is not below EPSILON3
    keeps both bounds. *)
Theorem zoomTo_pads (w : World) (l : loc) :
  isEnabled (self w) = true ->
  isShown (self w) = true ->
  rectangle (self w) = Some l ->
  Number.gtb (east (heap w l) - west (heap w l))%float 3.14 = false ->
  let r := heap w l in
  let epsilon := CesiumMath.EPSILON3 in
  let w' := exec zoomTo w in
  let destination := heap w' scratchRectangle in
  trace w' =
    trace w
    ++ [ga "zoomTo" (name (self w)) None]
    ++ (if cesiumScene (context (self w))
        then [tweens_add destination] else [])
    ++ (if leafletMap (context (self w))
        then [fitBounds destination] else [])
  /\ (Number.ltb (east r - west r)%float epsilon = true ->
      east destination = (east r + epsilon)%float
      /\ west destination = (west r - epsilon)%float)
  /\ (Number.ltb (east r - west r)%float epsilon = false ->
      east destination = east r /\ west destination = west r)
  /\ (Number.ltb (north r - south r)%float epsilon = true ->
      north destination = (north r + epsilon)%float
      /\ south destination = (south r - epsilon)%float)
  /\ (Number.ltb (north r - south r)%float epsilon = false ->
      north destination = north r /\ south destination = south r).
Proof. exact (zoomTo_padding w l). Qed.

Lemma zoomTo_pads_witness :
  let w := shownWith (mkContext true false) (mkRectangle 1 0 1 2) in
  let destination := heap (exec zoomTo w) scratchRectangle in
  trace (exec zoomTo w)
    = [ga "zoomTo" "roads" None; tweens_add destination]
  /\ east destination = (1 + 0.001)%float
  /\ west destination = (1 - 0.001)%float
  /\ north destination = 2%float /\ south destination = 0%float.
Proof.
  cbv zeta.
  pose proof (zoomTo_pads
                (shownWith (mkContext true false) (mkRectangle 1 0 1 2))
                3%positive eq_refl eq_refl eq_refl eq_refl) as H.
  cbv zeta in H.
  destruct H as (Ht & Hx & _ & _ & Hy).
  destruct (Hx eq_refl) as (He & Hw).
  destruct (Hy eq_refl) as (Hn & Hs).
  repeat split; assumption.
Defined.

(** C5, as the claim has it, fails: the sums are rounded, so the width of
    the destination is not the width of the rectangle plus twice epsilon.
    From west = east = 1 the destination runs from the double nearest to
    0.999 to the double nearest to 1.001, which are 0.0019999999999998908
    apart, where 0 + 2 * 0.001 is 0.002. *)
Lemma zoomTo_pads_rounds :
  let w := shownWith (mkContext true false) (mkRectangle 1 0 1 2) in
  let r := heap w 3%positive in
  let destination := heap (exec zoomTo w) scratchRectangle in
  Number.ltb (east r - west r)%float CesiumMath.EPSILON3 = true
  /\ (east destination - west destination)%float
     = 0.0019999999999998908%float
  /\ ((east r - west r) + 2 * CesiumMath.EPSILON3)%float = 0.002%float
  /\ PrimFloat.eqb (east destination - west destination)
                   ((east r - west r) + 2 * CesiumMath.EPSILON3) = false.
Proof. repeat split. Qed.


(** ** The default rectangle *)

Ltac split_cases :=
  cbn;
  repeat (match goal with
          | |- context [match ?d with Some _ => _ | None => _ end] =>
              is_var d; destruct d
          | |- context [if ?b then _ else _] => is_var b; destruct b
          | |- context [if negb (Z.eqb ?z 0) then _ else _] =>
              destruct (Z.eqb z 0)
          end; cbn).

Lemma MAX_VALUE_wide : Number.gtb (width MAX_VALUE) 3.14 = true.
Proof. reflexivity. Qed.

Lemma zoomTo_untouched (w : World) :
  untouched w ->
  zoomTo w =
    (tt, mkWorld (self w) (heap w) (clock w) (ticks w)
           (trace w ++ (if (isEnabled (self w) && isShown (self w))%bool
                        then [console_log tooWide] else []))).
Proof.
  intros (Hr & Hh & _).
  destruct (isEnabled (self w)) eqn:He; [destruct (isShown (self w)) eqn:Hs |].
  - rewrite (zoomTo_wide w Rectangle_MAX_VALUE He Hs Hr);
      [reflexivity | rewrite Hh; exact MAX_VALUE_wide].
  - rewrite zoomTo_guarded by auto. cbn. rewrite app_nil_r.
    destruct w; reflexivity.
  - rewrite zoomTo_guarded by auto. cbn. rewrite app_nil_r.
    destruct w; reflexivity.
Qed.

Lemma toggleShown_exec (w : World) :
  exec toggleShown w = exec (set_isShown (negb (isShown (self w)))) w.
Proof.
  unfold toggleShown, exec, bind, this, ret.
  destruct (set_isShown (negb (isShown (self w))) w). reflexivity.
Qed.

Lemma toggleLegendVisible_exec (w : World) :
  exec toggleLegendVisible w
  = exec (set_isLegendVisible (negb (isLegendVisible (self w)))) w.
Proof. reflexivity. Qed.

Ltac no_flight :=
  repeat (rewrite existsb_app; cbn [existsb isFlight]);
  rewrite ?orb_false_r; reflexivity.

Lemma set_isShown_leaves (b : bool) (w : World) :
  leaves_rectangle w (exec (set_isShown b) w).
Proof.
  unfold leaves_rectangle.
  open_world w; unfold_methods; destruct b; split_cases;
    repeat split; try reflexivity; no_flight.
Qed.

Lemma set_isEnabled_leaves (b : bool) (w : World) :
  leaves_rectangle w (exec (set_isEnabled b) w).
Proof.
  unfold leaves_rectangle.
  open_world w; unfold_methods; destruct b; split_cases;
    repeat split; try reflexivity; no_flight.
Qed.

Lemma perform_untouched (c : Call) (w : World) :
  untouched w -> untouched (perform c w).
Proof.
  intros (Hr & Hh & Ht).
  assert (Hk : forall w', leaves_rectangle w w' -> untouched w').
  { intros w' (Hr' & Hh' & _ & Ht'). unfold untouched.
    rewrite Hr', Hh', Ht'. auto. }
  destruct c; cbn [perform].
  - rewrite toggleEnabled_exec. apply Hk, set_isEnabled_leaves.
  - rewrite toggleShown_exec. apply Hk, set_isShown_leaves.
  - apply Hk. repeat split.
  - unfold exec. rewrite zoomTo_untouched by (repeat split; assumption).
    repeat split; cbn; try assumption.
    rewrite existsb_app, Ht. destruct (isEnabled (self w) && isShown (self w))%bool;
      reflexivity.
  - apply Hk, set_isEnabled_leaves.
  - apply Hk, set_isShown_leaves.
  - apply Hk. repeat split.
  - apply Hk. repeat split.
Qed.

Lemma run_untouched (calls : list Call) (w : World) :
  untouched w -> untouched (run calls w).
Proof.
  revert w. induction calls as [| c calls IH]; intros w H; cbn.
  - exact H.
  - apply IH, perform_untouched, H.
Qed.

Lemma newWorld_untouched ctx nm clk : untouched (newWorld ctx nm clk).
Proof. repeat split. Qed.

(** C10: after any sequence of calls that never assigns [rectangle], the view
    model still holds the constructor's whole-world rectangle, whose width
    exceeds 3.14.  On such a view model [zoomTo] adds to the trace the
    console message alone when the view model is enabled and shown, and
    nothing otherwise: no flight is ever started. *)
Theorem default_rectangle_refused
    (ctx : GeoDataCatalogContext) (nm : string) (clk : nat -> Z)
    (calls : list Call) :
  let w := run calls (newWorld ctx nm clk) in
  rectangle (self w) = Some Rectangle_MAX_VALUE
  /\ heap w Rectangle_MAX_VALUE = MAX_VALUE
  /\ width MAX_VALUE = (2 * CesiumMath.PI)%float
  /\ Number.gtb (width MAX_VALUE) 3.14 = true
  /\ trace (exec zoomTo w) =
       trace w ++ (if (isEnabled (self w) && isShown (self w))%bool
                   then [console_log tooWide] else [])
  /\ existsb isFlight (trace (exec zoomTo w)) = false.
Proof.
  cbv zeta.
  pose proof (run_untouched calls _ (newWorld_untouched ctx nm clk)) as H.
  pose proof (perform_untouched call_zoomTo _ H) as (_ & _ & Hz).
  destruct H as (Hr & Hh & Ht).
  repeat split; try assumption.
  unfold exec. rewrite zoomTo_untouched by (repeat split; assumption).
  reflexivity.
Qed.

(** ** The shown flag and the "hidden" event *)

(** Under 2^31 seconds, which is some 68 years, the wrap to 32 bits does
    nothing: the duration is the number of whole seconds elapsed. *)
Lemma elapsedSeconds_whole (now t : Z) :
  0 <= now - t < 1000 * 2 ^ 31 ->
  Number.elapsedSeconds now t = (now - t) / 1000.
Proof.
  intro H. unfold Number.elapsedSeconds, Number.ToInt32.
  rewrite Z.quot_div_nonneg by lia.
  assert (0 <= (now - t) / 1000 < 2 ^ 31).
  { split; [apply Z.div_pos; lia | apply Z.div_lt_upper_bound; lia]. }
  rewrite Z.mod_small by lia. lia.
Qed.





Lemma set_isShown_stamped (b : bool) (w : World) :
  stamped w -> stamped (exec (set_isShown b) w).
Proof.
  unfold stamped.
  open_world w; unfold_methods; destruct b; split_cases;
    intros H Hc; specialize (H Hc); destruct H as (H1 & H2 & H3);
    repeat split; try assumption; try congruence;
    try (intro E; injection E; apply Hc).
Qed.

Lemma set_isEnabled_stamped (b : bool) (w : World) :
  stamped w -> stamped (exec (set_isEnabled b) w).
Proof.
  unfold stamped.
  open_world w; unfold_methods; destruct b; split_cases;
    intros H Hc; specialize (H Hc); destruct H as (H1 & H2 & H3);
    repeat split; try assumption; try congruence;
    try (intro E; injection E; apply Hc).
Qed.

Lemma perform_stamped (c : Call) (w : World) :
  stamped w -> stamped (perform c w).
Proof.
  intro H. destruct c; cbn [perform].
  - rewrite toggleEnabled_exec. apply set_isEnabled_stamped, H.
  - rewrite toggleShown_exec. apply set_isShown_stamped, H.
  - exact H.
  - unfold stamped. destruct (zoomTo_frame w) as (Hs & Hc & _).
    rewrite Hs, Hc. exact H.
  - apply set_isEnabled_stamped, H.
  - apply set_isShown_stamped, H.
  - exact H.
  - exact H.
Qed.

Lemma run_stamped (calls : list Call) (w : World) :
  stamped w -> stamped (run calls w).
Proof.
  revert w. induction calls as [| c calls IH]; intros w H; cbn.
  - exact H.
  - apply IH, perform_stamped, H.
Qed.

Lemma newWorld_stamped ctx nm clk : stamped (newWorld ctx nm clk).
Proof. intros _. cbn. repeat split; discriminate. Qed.

(** ** The legend *)

Module LegendFacts.

Import RegExp Legend.
Local Open Scope string_scope.

Lemma sameChar_eq (a b : ascii) :
  sameChar a b = true <-> Canonicalize a = Canonicalize b.
Proof. apply Ascii.eqb_eq. Qed.

Lemma literal_sound (p s g : string) :
  literal p s = Some g -> exists post, s = g ++ post /\ fold g = fold p.
Proof.
  revert s g. induction p as [| a p IH]; intros s g H; cbn in H.
  - injection H as <-. exists s. split; reflexivity.
  - destruct s as [| b s]; [discriminate |].
    destruct (sameChar a b) eqn:E; [| discriminate].
    destruct (literal p s) as [g' |] eqn:El; [| discriminate].
    injection H as <-. destruct (IH _ _ El) as (post & -> & Hf).
    exists post. split; [reflexivity |]. cbn.
    apply sameChar_eq in E. now rewrite Hf, E.
Qed.

Lemma literal_complete (p g post : string) :
  fold g = fold p -> literal p (g ++ post) = Some g.
Proof.
  revert g. induction p as [| a p IH]; intros g H.
  - destruct g; [reflexivity | discriminate].
  - destruct g as [| b g]; [discriminate |]. cbn in H.
    injection H as Hc Hf. cbn.
    assert (E : sameChar a b = true) by (apply sameChar_eq; congruence).
    rewrite E, (IH g Hf). reflexivity.
Qed.

Lemma firstOf_sound (ps : list string) (s g : string) :
  firstOf ps s = Some g ->
  exists p post, In p ps /\ s = g ++ post /\ fold g = fold p.
Proof.
  induction ps as [| p ps IH]; cbn; [discriminate |].
  destruct (literal p s) as [g' |] eqn:E.
  - intro H. injection H as <-.
    destruct (literal_sound _ _ _ E) as (post & Hs & Hf).
    exists p, post. auto.
  - intro H. destruct (IH H) as (q & post & Hq & Hs & Hf).
    exists q, post. auto.
Qed.

Lemma firstOf_complete (ps : list string) (p g post : string) :
  In p ps -> fold g = fold p -> firstOf ps (g ++ post) <> None.
Proof.
  induction ps as [| q ps IH]; cbn; [tauto |].
  intros [-> | Hin] Hf.
  - rewrite (literal_complete _ _ _ Hf). discriminate.
  - destruct (literal q (g ++ post)); [discriminate | auto].
Qed.

Lemma separator_spec (c : ascii) :
  separator c = true <-> c = "."%char \/ c = "/"%char.
Proof.
  unfold separator. rewrite orb_true_iff, !Ascii.eqb_eq. tauto.
Qed.

Lemma exec_cons (c : ascii) (s : string) :
  exec (String c s) =
    match matchHere (String c s) with
    | Some m => Some m
    | None => exec s
    end.
Proof. reflexivity. Qed.

Lemma hasImageWord_cons (c : ascii) (s : string) :
  hasImageWord s -> hasImageWord (String c s).
Proof.
  intros (pre & c' & g & post & p & -> & Hr).
  exists (String c pre), c', g, post, p. auto.
Qed.

Lemma exec_sound (s : string) (m : list string) :
  exec s = Some m -> hasImageWord s.
Proof.
  induction s as [| c s IH]; [discriminate |].
  rewrite exec_cons. unfold matchHere.
  destruct (separator c) eqn:Ec.
  - destruct (firstOf alternatives s) as [g |] eqn:Eg;
      cbn [option_map].
    + intros _.
      destruct (firstOf_sound _ _ _ Eg) as (p & post & Hp & -> & Hf).
      exists EmptyString, c, g, post, p. rewrite separator_spec in Ec. auto.
    + intro H. apply hasImageWord_cons, IH, H.
  - intro H. apply hasImageWord_cons, IH, H.
Qed.

Lemma exec_complete (s : string) : hasImageWord s -> exec s <> None.
Proof.
  intros (pre & c & g & post & p & -> & Hc & Hp & Hf).
  induction pre as [| a pre IH]; cbn [append]; rewrite exec_cons.
  - unfold matchHere. apply separator_spec in Hc. rewrite Hc.
    pose proof (firstOf_complete _ _ _ post Hp Hf) as H.
    destruct (firstOf alternatives (g ++ post)); [discriminate | tauto].
  - destruct (matchHere _); [discriminate | exact IH].
Qed.

Lemma occurs_sound (p s : string) :
  occurs p s = true ->
  exists pre g post, s = pre ++ g ++ post /\ fold g = fold p.
Proof.
  induction s as [| c s IH].
  - cbn. destruct (literal p EmptyString) as [g |] eqn:E; [| discriminate].
    intros _. destruct (literal_sound _ _ _ E) as (post & Hs & Hf).
    exists EmptyString, g, post. auto.
  - cbn [occurs]. destruct (literal p (String c s)) as [g |] eqn:E.
    + intros _. destruct (literal_sound _ _ _ E) as (post & Hs & Hf).
      exists EmptyString, g, post. auto.
    + intro H. destruct (IH H) as (pre & g & post & -> & Hf).
      exists (String c pre), g, post. auto.
Qed.

Lemma Canonicalize_dot (c : ascii) :
  Canonicalize c = "."%char -> c = "."%char.
Proof.
  destruct c as [[] [] [] [] [] [] [] []]; vm_compute; congruence.
Qed.

Lemma hasImageExtension_word (url : string) :
  hasImageExtension (Some url) = true -> hasImageWord url.
Proof.
  unfold hasImageExtension. rewrite existsb_exists.
  intros (ext & Hin & Ho).
  destruct (occurs_sound _ _ Ho) as (pre & g & post & -> & Hf).
  destruct g as [| c word]; [discriminate |].
  cbn in Hf. injection Hf as Hc Hw.
  exists pre, c, word, post, ext. repeat split; auto.
  left. apply Canonicalize_dot. exact Hc.
Qed.

End LegendFacts.

(** C6, as the code has it: [legendIsImage] is truthy exactly when
    [legendUrl] is defined and contains, anywhere, a dot or a slash directly
    followed by png, jpg, jpeg or gif in any mix of upper and lower case.  So
    it is truthy for "http://x/legend.PNG" and falsy for
    "http://x/legend.svg", for the empty string and for [undefined]; and
    every URL with one of the four file extensions is accepted. *)
Theorem legendIsImage_iff (v : GeoDataSourceViewModel) :
  (truthy (legendIsImage v) = true <->
   exists url, legendUrl v = Some url /\ Legend.hasImageWord url)
  /\ truthy (legendIsImage
              (with_legendUrl (Some "http://x/legend.PNG"%string) v)) = true
  /\ truthy (legendIsImage
              (with_legendUrl (Some "http://x/legend.svg"%string) v)) = false
  /\ truthy (legendIsImage (with_legendUrl (Some EmptyString) v)) = false
  /\ truthy (legendIsImage (with_legendUrl None v)) = false
  /\ implb (Legend.hasImageExtension (legendUrl v))
           (truthy (legendIsImage v)) = true.
Proof.
  assert (Hiff : truthy (legendIsImage v) = true <->
                 exists url, legendUrl v = Some url
                             /\ Legend.hasImageWord url);
    [| split; [exact Hiff | repeat split];
       destruct (Legend.hasImageExtension (legendUrl v)) eqn:E;
       [| reflexivity]; cbn; apply Hiff;
       destruct (legendUrl v) as [url |]; [| discriminate];
       exists url; split;
       [reflexivity | exact (LegendFacts.hasImageExtension_word _ E)]].
  unfold legendIsImage, imageUrlRegex.
  destruct (legendUrl v) as [url |]; cbn.
  - destruct url as [| c url].
    + cbn. split; [discriminate |].
      intros (u & E & pre & c & g & post & p & H & _).
      injection E as <-. destruct pre; discriminate.
    + cbn [String.length Nat.eqb truthy].
      destruct (RegExp.exec (String c url)) as [m |] eqn:E.
      * split; [| reflexivity]. intros _. exists (String c url).
        split; [reflexivity | exact (LegendFacts.exec_sound _ _ E)].
      * split; [discriminate |]. intros (u & Eu & Hu).
        injection Eu as <-. now apply LegendFacts.exec_complete in Hu.
  - split; [discriminate |]. intros (u & E & _). discriminate.
Qed.

(** C6, as the claim has it, fails: the URL of a legend served by a map
    server names the image type after a slash, carries no file extension,
    and is taken for an image all the same. *)
Lemma legendIsImage_without_extension :
  let v := with_legendUrl
             (Some "http://x/wms?request=GetLegendGraphic&format=image/png"%string)
             (new_GeoDataSourceViewModel (mkContext true false) "roads") in
  truthy (legendIsImage v) = true
  /\ Legend.hasImageExtension (legendUrl v) = false.
Proof. split; reflexivity. Qed.

(** The word alone is not enough: without a dot or a slash before it the
    legend is not taken for an image. *)
Lemma legendIsImage_needs_separator (v : GeoDataSourceViewModel) :
  truthy (legendIsImage (with_legendUrl (Some "http://x/mypng"%string) v))
  = false.
Proof. reflexivity. Qed.

(** * Further properties *)

(** ** The other toggles *)

Lemma toggleShown_result (w : World) :
  result toggleShown w = isShown (self (exec toggleShown w)).
Proof.
  unfold toggleShown, exec, result, bind, this, ret.
  destruct (set_isShown (negb (isShown (self w))) w). reflexivity.
Qed.

(** What a write of [isShown] does to the view model: the flag takes the
    value written and every field but [_shownDate] is kept. *)
Lemma set_isShown_fields (b : bool) (w : World) :
  let v := self w in
  let v' := self (exec (set_isShown b) w) in
  isShown v' = b
  /\ isEnabled v' = isEnabled v
  /\ _enabledDate v' = _enabledDate v
  /\ isLegendVisible v' = isLegendVisible v
  /\ rectangle v' = rectangle v
  /\ legendUrl v' = legendUrl v
  /\ context v' = context v
  /\ name v' = name v.
Proof.
  open_world w; unfold_methods; destruct b; split_cases;
    repeat split; reflexivity.
Qed.

(** X1: [toggleShown] flips [isShown] and returns the new value, a second
    call brings [isShown] back and returns the value it had at the start,
    and neither call writes [isEnabled]. *)
Theorem toggleShown_twice (w : World) :
  let w1 := exec toggleShown w in
  let w2 := exec toggleShown w1 in
  result toggleShown w = negb (isShown (self w))
  /\ isShown (self w1) = negb (isShown (self w))
  /\ result toggleShown w1 = isShown (self w)
  /\ isShown (self w2) = isShown (self w)
  /\ isEnabled (self w1) = isEnabled (self w)
  /\ isEnabled (self w2) = isEnabled (self w).
Proof.
  cbv zeta. rewrite !toggleShown_result.
  rewrite (toggleShown_exec (exec toggleShown w)), (toggleShown_exec w).
  pose proof (set_isShown_fields (negb (isShown (self w))) w) as H1.
  cbv zeta in H1. destruct H1 as (H1 & H1e & _).
  pose proof (set_isShown_fields
                (negb (isShown (self (exec (set_isShown
                   (negb (isShown (self w)))) w))))
                (exec (set_isShown (negb (isShown (self w)))) w)) as H2.
  cbv zeta in H2. destruct H2 as (H2 & H2e & _).
  rewrite H2, H2e, H1, H1e, negb_involutive. repeat split.
Qed.

(** X2: [toggleLegendVisible] flips the flag, returns the new value and
    does nothing else: no engine is called, no event is sent, the clock is
    not read.  Two calls give back the world they started from. *)
Theorem toggleLegendVisible_involutive (w : World) :
  let w1 := exec toggleLegendVisible w in
  result toggleLegendVisible w = negb (isLegendVisible (self w))
  /\ isLegendVisible (self w1) = negb (isLegendVisible (self w))
  /\ trace w1 = trace w
  /\ ticks w1 = ticks w
  /\ isEnabled (self w1) = isEnabled (self w)
  /\ isShown (self w1) = isShown (self w)
  /\ exec toggleLegendVisible w1 = w.
Proof.
  destruct w as [v h c t tr]; destruct v; cbn.
  rewrite negb_involutive. repeat split.
Qed.

(** ** The legend getters *)

(** X3: [legendIsImage] returns [false] itself exactly when there is no
    legend ([hasLegend] is false: the URL is undefined or empty); with a
    legend it returns what [match] gives, so whenever it is truthy
    [hasLegend] is true. *)
Theorem legendIsImage_hasLegend (v : GeoDataSourceViewModel) :
  (legendIsImage v = JSfalse <-> hasLegend v = false)
  /\ (hasLegend v = true <->
      exists url, legendUrl v = Some url
                  /\ legendIsImage v = JSmatch (imageUrlRegex url))
  /\ implb (truthy (legendIsImage v)) (hasLegend v) = true.
Proof.
  unfold legendIsImage, hasLegend, Nat.ltb.
  destruct (legendUrl v) as [url |].
  - destruct url as [| c url]; cbn [String.length Nat.eqb Nat.leb].
    + repeat split; try reflexivity; try discriminate.
      intros (u & _ & H). discriminate.
    + repeat split; try reflexivity; try discriminate.
      * exists (String c url). split; reflexivity.
      * destruct (imageUrlRegex (String c url)); reflexivity.
  - repeat split; try reflexivity; try discriminate.
    intros (u & H & _). discriminate.
Qed.

Lemma exec_match (s : string) (m : list string) :
  RegExp.exec s = Some m ->
  exists pre c word post p,
    s = (pre ++ String c (word ++ post))%string
    /\ m = [String c word; word]
    /\ (c = "."%char \/ c = "/"%char)
    /\ In p RegExp.alternatives
    /\ Legend.fold word = Legend.fold p.
Proof.
  induction s as [| a s IH]; [discriminate |].
  rewrite LegendFacts.exec_cons. unfold RegExp.matchHere.
  assert (Hrec : RegExp.exec s = Some m ->
                 exists pre c word post p,
                   String a s = (pre ++ String c (word ++ post))%string
                   /\ m = [String c word; word]
                   /\ (c = "."%char \/ c = "/"%char)
                   /\ In p RegExp.alternatives
                   /\ Legend.fold word = Legend.fold p).
  { intro E. destruct (IH E) as (pre & c & g & post & p & -> & Hr).
    exists (String a pre), c, g, post, p. auto. }
  destruct (RegExp.separator a) eqn:Ea; [| exact Hrec].
  destruct (RegExp.firstOf RegExp.alternatives s) as [g |] eqn:Eg;
    cbn [option_map]; [| exact Hrec].
  intro H. injection H as <-.
  destruct (LegendFacts.firstOf_sound _ _ _ Eg) as (p & post & Hp & -> & Hf).
  exists EmptyString, a, g, post, p.
  apply LegendFacts.separator_spec in Ea. auto.
Qed.

(** X4: when [legendIsImage] returns a match, it is an array of two strings
    taken from the URL as they are spelled there: the separator with the
    word, and the word alone, which is png, jpg, jpeg or gif up to case. *)
Theorem legendIsImage_match (v : GeoDataSourceViewModel) (m : list string) :
  legendIsImage v = JSmatch (Some m) ->
  exists url pre c word post p,
    legendUrl v = Some url
    /\ url = (pre ++ String c (word ++ post))%string
    /\ m = [String c word; word]
    /\ (c = "."%char \/ c = "/"%char)
    /\ In p RegExp.alternatives
    /\ Legend.fold word = Legend.fold p.
Proof.
  unfold legendIsImage, imageUrlRegex.
  destruct (legendUrl v) as [url |]; [| discriminate].
  destruct (Nat.eqb (String.length url) 0); [discriminate |].
  intro H. injection H as H.
  destruct (exec_match _ _ H) as (pre & c & g & post & p & Hr).
  exists url, pre, c, g, post, p. split; [reflexivity | exact Hr].
Qed.

Lemma legendIsImage_match_witness :
  exists url pre c word post p,
    Some "http://x/legend.PNG"%string = Some url
    /\ url = (pre ++ String c (word ++ post))%string
    /\ ["." ++ "PNG"; "PNG"]%string = [String c word; word]
    /\ (c = "."%char \/ c = "/"%char)
    /\ In p RegExp.alternatives
    /\ Legend.fold word = Legend.fold p.
Proof.
  exact (legendIsImage_match
           (with_legendUrl (Some "http://x/legend.PNG"%string)
              (new_GeoDataSourceViewModel (mkContext true true) "roads"))
           ["." ++ "PNG"; "PNG"]%string eq_refl).
Defined.

(** ** One transition at a time *)

Ltac assoc_trace := cbn; rewrite <- ?app_assoc; cbn; reflexivity.

Lemma show_effect (w : World) :
  isShown (self w) = false ->
  exec (set_isShown true) w =
    mkWorld
      (with_shownDate (Some (clock w (ticks w)))
         (with_isShown true (self w)))
      (heap w) (clock w) (S (ticks w))
      (trace w ++ shownHooks (context (self w)) true
               ++ [ga "shown" (name (self w)) None]).
Proof.
  intro H; open_world w; subst; unfold_methods; unfold shownHooks;
    cbn; rewrite <- ?app_assoc; reflexivity.
Qed.

Lemma hide_effect (w : World) (shown : Z) :
  isShown (self w) = true ->
  _shownDate (self w) = Some shown ->
  exec (set_isShown false) w =
    mkWorld (with_isShown false (self w))
      (heap w) (clock w) (S (ticks w))
      (trace w ++ shownHooks (context (self w)) false
               ++ [ga "hidden" (name (self w))
                      (Some (seconds (Number.elapsedSeconds
                                        (clock w (ticks w)) shown)))]).
Proof.
  intros H Hd; open_world w; subst; unfold_methods; unfold shownHooks;
    cbn; rewrite <- ?app_assoc; reflexivity.
Qed.

Lemma enable_effect (w : World) :
  isEnabled (self w) = false ->
  exec (set_isEnabled true) w =
    if isShown (self w) then
      mkWorld
        (with_enabledDate (Some (clock w (ticks w)))
           (with_isEnabled true (self w)))
        (heap w) (clock w) (S (ticks w))
        (trace w ++ enabledHooks (context (self w)) true
                 ++ [nowViewing_add; ga "added" (name (self w)) None])
    else
      mkWorld
        (with_enabledDate (Some (clock w (S (ticks w))))
           (with_shownDate (Some (clock w (ticks w)))
              (with_isShown true (with_isEnabled true (self w)))))
        (heap w) (clock w) (S (S (ticks w)))
        (trace w ++ enabledHooks (context (self w)) true
                 ++ shownHooks (context (self w)) true
                 ++ [ga "shown" (name (self w)) None;
                     nowViewing_add; ga "added" (name (self w)) None]).
Proof.
  intro H; open_world w; subst; unfold_methods;
    unfold shownHooks, enabledHooks; destruct isShown0;
    cbn; rewrite <- ?app_assoc; reflexivity.
Qed.

Lemma disable_effect (w : World) (enabled : Z) :
  isEnabled (self w) = true ->
  _enabledDate (self w) = Some enabled ->
  enabled <> 0 ->
  exec (set_isEnabled false) w =
    mkWorld (with_isEnabled false (self w))
      (heap w) (clock w) (S (ticks w))
      (trace w ++ enabledHooks (context (self w)) false
               ++ [nowViewing_remove;
                   ga "removed" (name (self w))
                      (Some (seconds (Number.elapsedSeconds
                                        (clock w (ticks w)) enabled)))]).
Proof.
  intros H Hd Hz; open_world w; subst; unfold_methods;
    unfold shownHooks, enabledHooks; cbn;
    destruct (Z.eqb_spec enabled 0); try contradiction;
    cbn; rewrite <- ?app_assoc; reflexivity.
Qed.

(** X5: enabling a view model that is not shown shows it first.  The engines
    are told to enable, then to show, the "shown" event is sent, and only
    then is the item added to the "now viewing" list and "added" sent; the
    clock is read twice, first for [_shownDate], then for [_enabledDate]. *)
Theorem enabling_hidden_order (w : World) :
  isEnabled (self w) = false ->
  isShown (self w) = false ->
  let w' := exec toggleEnabled w in
  let ctx := context (self w) in
  trace w' =
    trace w ++ enabledHooks ctx true ++ shownHooks ctx true
            ++ [ga "shown" (name (self w)) None;
                nowViewing_add; ga "added" (name (self w)) None]
  /\ _shownDate (self w') = Some (clock w (ticks w))
  /\ _enabledDate (self w') = Some (clock w (S (ticks w)))
  /\ ticks w' = S (S (ticks w)).
Proof.
  intros He Hs. cbv zeta. rewrite toggleEnabled_exec, He. cbn [negb].
  rewrite (enable_effect w He), Hs. repeat split.
Qed.

Lemma enabling_hidden_order_witness :
  let w' := exec toggleEnabled
              (newWorld (mkContext true true) "roads"
                        (fun n => 100 + Z.of_nat n)) in
  trace w' = [enableInCesium; enableInLeaflet; showInCesium; showInLeaflet;
              ga "shown" "roads" None; nowViewing_add;
              ga "added" "roads" None]
  /\ _shownDate (self w') = Some 100
  /\ _enabledDate (self w') = Some 101
  /\ ticks w' = 2%nat.
Proof.
  exact (enabling_hidden_order
           (newWorld (mkContext true true) "roads"
                     (fun n => 100 + Z.of_nat n)) eq_refl eq_refl).
Defined.

(** X6: showing a view model, by assignment or by [toggleShown], calls the
    show hook of each engine present, sends "shown", stamps [_shownDate]
    with one reading of the clock, and writes nothing else: in particular it
    does not enable the view model and does not touch the "now viewing"
    list. *)
Theorem showing_effect (w : World) :
  isShown (self w) = false ->
  let w' := exec toggleShown w in
  w' = exec (set_isShown true) w
  /\ self w' = with_shownDate (Some (clock w (ticks w)))
                 (with_isShown true (self w))
  /\ isEnabled (self w') = isEnabled (self w)
  /\ ticks w' = S (ticks w)
  /\ trace w' = trace w ++ shownHooks (context (self w)) true
                        ++ [ga "shown" (name (self w)) None].
Proof.
  intro Hs. cbv zeta. rewrite toggleShown_exec, Hs. cbn [negb].
  rewrite (show_effect w Hs). repeat split.
Qed.

Lemma showing_effect_witness :
  let w := newWorld (mkContext false true) "roads" (fun _ => 42) in
  let w' := exec toggleShown w in
  isEnabled (self w') = false
  /\ isShown (self w') = true
  /\ trace w' = [showInLeaflet; ga "shown" "roads" None].
Proof.
  cbv zeta.
  destruct (showing_effect
              (newWorld (mkContext false true) "roads" (fun _ => 42))
              eq_refl) as (_ & Hv & He & _ & Ht).
  split; [exact He | split; [rewrite Hv; reflexivity | exact Ht]].
Defined.

(** X7: showing and then hiding reports the time between the two: the
    "hidden" event carries the whole seconds from the clock reading taken at
    the show to the one taken at the hide, whatever [_enabledDate] holds,
    and [_shownDate] is kept, not cleared. *)
Theorem show_then_hide (w : World) :
  isShown (self w) = false ->
  let w1 := exec toggleShown w in
  let w2 := exec toggleShown w1 in
  let ctx := context (self w) in
  let n := ticks w in
  isShown (self w2) = false
  /\ _shownDate (self w2) = Some (clock w n)
  /\ trace w2 =
       trace w1 ++ shownHooks ctx false
       ++ [ga "hidden" (name (self w))
             (Some (seconds (Number.elapsedSeconds
                               (clock w (S n)) (clock w n))))].
Proof.
  intro Hs. cbv zeta.
  rewrite (toggleShown_exec (exec toggleShown w)).
  rewrite (toggleShown_exec w), Hs. cbn [negb].
  rewrite (show_effect w Hs). cbn [self isShown with_shownDate with_isShown negb].
  match goal with
  | |- context [exec (set_isShown false) ?w1] =>
      rewrite (hide_effect w1 (clock w (ticks w)) eq_refl eq_refl)
  end.
  repeat split.
Qed.

Lemma show_then_hide_witness :
  let w := newWorld (mkContext true false) "roads"
                    (fun n => 1000 + 7500 * Z.of_nat n) in
  trace (exec toggleShown (exec toggleShown w))
  = [showInCesium; ga "shown" "roads" None;
     hideInCesium; ga "hidden" "roads" (Some (seconds 7))].
Proof.
  cbv zeta.
  destruct (show_then_hide
              (newWorld (mkContext true false) "roads"
                        (fun n => 1000 + 7500 * Z.of_nat n))
              eq_refl) as (_ & _ & Ht).
  rewrite Ht. reflexivity.
Defined.

(** X8: enabling and then disabling reports the time between the two: the
    "removed" event carries the whole seconds from the clock reading stamped
    into [_enabledDate] to the reading taken at the disable, provided the
    stamped reading is not 0; [_enabledDate] is kept, and the item leaves
    the "now viewing" list before the event is sent. *)
Theorem enable_then_disable (w : World) :
  isEnabled (self w) = false ->
  let w1 := exec toggleEnabled w in
  let w2 := exec toggleEnabled w1 in
  let ctx := context (self w) in
  let k := if isShown (self w) then ticks w else S (ticks w) in
  clock w k <> 0 ->
  isEnabled (self w2) = false
  /\ _enabledDate (self w2) = Some (clock w k)
  /\ trace w2 =
       trace w1 ++ enabledHooks ctx false
       ++ [nowViewing_remove;
           ga "removed" (name (self w))
             (Some (seconds (Number.elapsedSeconds
                               (clock w (S k)) (clock w k))))].
Proof.
  intros He. cbv zeta. intro Hz.
  rewrite (toggleEnabled_exec (exec toggleEnabled w)).
  rewrite (toggleEnabled_exec w), He. cbn [negb].
  rewrite (enable_effect w He).
  destruct (isShown (self w));
    cbn [self isEnabled with_enabledDate with_shownDate with_isShown
         with_isEnabled negb];
    match goal with
    | |- context [exec (set_isEnabled false) ?w1] =>
        rewrite (disable_effect w1 _ eq_refl eq_refl Hz)
    end; repeat split.
Qed.

Lemma enable_then_disable_witness :
  let w := newWorld (mkContext false false) "roads"
                    (fun n => 1000 + 2000 * Z.of_nat n) in
  trace (exec toggleEnabled (exec toggleEnabled w))
  = [ga "shown" "roads" None; nowViewing_add; ga "added" "roads" None;
     nowViewing_remove; ga "removed" "roads" (Some (seconds 2))].
Proof.
  cbv zeta.
  destruct (enable_then_disable
              (newWorld (mkContext false false) "roads"
                        (fun n => 1000 + 2000 * Z.of_nat n))
              eq_refl) as (_ & _ & Ht).
  - discriminate.
  - rewrite Ht. reflexivity.
Defined.

Lemma disable_effect_any (w : World) :
  isEnabled (self w) = true ->
  exists duration t,
    exec (set_isEnabled false) w =
      mkWorld (with_isEnabled false (self w))
        (heap w) (clock w) t
        (trace w ++ enabledHooks (context (self w)) false
                 ++ [nowViewing_remove;
                     ga "removed" (name (self w)) (Some duration)]).
Proof.
  intros H; open_world w; subst; unfold_methods;
    unfold shownHooks, enabledHooks; cbn;
    (destruct _enabledDate0 as [z |]; cbn; [destruct (z =? 0) |]);
    cbn; do 2 eexists; rewrite <- ?app_assoc; reflexivity.
Qed.

(** X9: a view model disabled while shown and then enabled again is not
    shown again: it was never hidden, so the second enabling calls the
    enable hooks and adds the item to the "now viewing" list, but calls no
    show hook, sends no "shown" event and leaves [_shownDate] as it was. *)
Theorem reenabling_shown (w : World) :
  isEnabled (self w) = true ->
  isShown (self w) = true ->
  let w2 := exec toggleEnabled (exec toggleEnabled w) in
  let ctx := context (self w) in
  isEnabled (self w2) = true
  /\ isShown (self w2) = true
  /\ _shownDate (self w2) = _shownDate (self w)
  /\ exists duration,
       trace w2 =
         trace w ++ enabledHooks ctx false
         ++ [nowViewing_remove;
             ga "removed" (name (self w)) (Some duration)]
         ++ enabledHooks ctx true
         ++ [nowViewing_add; ga "added" (name (self w)) None].
Proof.
  intros He Hs. cbv zeta.
  rewrite (toggleEnabled_exec (exec toggleEnabled w)).
  rewrite (toggleEnabled_exec w), He. cbn [negb].
  destruct (disable_effect_any w He) as (d & t & ->).
  cbn [self isEnabled with_isEnabled negb].
  match goal with
  | |- context [exec (set_isEnabled true) ?w1] =>
      rewrite (enable_effect w1 eq_refl)
  end.
  cbn [self isShown with_isEnabled]. rewrite Hs.
  repeat split; try assumption.
  exists d. cbn [trace self context name with_isEnabled].
  rewrite <- !app_assoc. reflexivity.
Qed.

Lemma reenabling_shown_witness :
  let w := exec toggleEnabled
             (newWorld (mkContext true false) "roads" (fun _ => 9)) in
  let w2 := exec toggleEnabled (exec toggleEnabled w) in
  isShown (self w2) = true /\ _shownDate (self w2) = _shownDate (self w).
Proof.
  cbv zeta.
  destruct (reenabling_shown
              (exec toggleEnabled
                 (newWorld (mkContext true false) "roads" (fun _ => 9)))
              eq_refl eq_refl) as (_ & Hs & Hd & _).
  split; assumption.
Defined.

(** ** What holds after any sequence of calls *)

Lemma replay_app (tr effs : list Effect) :
  replay (tr ++ effs) = fold_left observe effs (replay tr).
Proof. unfold replay. apply fold_left_app. Qed.

Arguments replay : simpl never.

Ltac in_step :=
  unfold inStep;
  intros (Hc & H1 & H2 & H3 & H4 & H5);
  cbn in Hc; subst; cbn;
  repeat rewrite replay_app; cbn;
  cbn in H1, H2, H3, H4, H5;
  rewrite ?H1, ?H2, ?H3, ?H4, ?H5;
  repeat split; reflexivity.

Lemma set_isShown_inStep ctx (b : bool) (w : World) :
  inStep ctx w -> inStep ctx (exec (set_isShown b) w).
Proof.
  open_world w; unfold_methods; destruct b; split_cases; in_step.
Qed.

Lemma set_isEnabled_inStep ctx (b : bool) (w : World) :
  inStep ctx w -> inStep ctx (exec (set_isEnabled b) w).
Proof.
  open_world w; unfold_methods; destruct b; split_cases; in_step.
Qed.

Lemma zoomTo_replay (w : World) :
  replay (trace (exec zoomTo w)) = replay (trace w).
Proof.
  open_world w; unfold_methods;
    destruct isEnabled0, isShown0, rectangle0 as [l0 |]; cbn;
    try reflexivity;
    destruct (Number.gtb _ _); cbn; rewrite ?replay_app; try reflexivity;
    destruct (Number.ltb _ _); cbn;
    destruct (Number.ltb _ _); cbn;
    rewrite ?replay_app; reflexivity.
Qed.

Lemma perform_inStep ctx (c : Call) (w : World) :
  inStep ctx w -> inStep ctx (perform c w).
Proof.
  intro H. destruct c; cbn [perform].
  - rewrite toggleEnabled_exec. apply set_isEnabled_inStep, H.
  - rewrite toggleShown_exec. apply set_isShown_inStep, H.
  - exact H.
  - unfold inStep. rewrite zoomTo_replay.
    destruct (zoomTo_frame w) as (-> & _). exact H.
  - apply set_isEnabled_inStep, H.
  - apply set_isShown_inStep, H.
  - exact H.
  - exact H.
Qed.

Lemma run_inStep ctx (calls : list Call) (w : World) :
  inStep ctx w -> inStep ctx (run calls w).
Proof.
  revert w. induction calls as [| c calls IH]; intros w H; cbn.
  - exact H.
  - apply IH, perform_inStep, H.
Qed.

Ltac absent_unused :=
  unfold absentUnused;
  intros (Hc & H1 & H2);
  cbn in Hc; subst; cbn in H1, H2 |- *;
  repeat rewrite existsb_app; cbn;
  rewrite ?H1, ?H2; repeat split; reflexivity.

Lemma set_isShown_absentUnused ctx (b : bool) (w : World) :
  absentUnused ctx w -> absentUnused ctx (exec (set_isShown b) w).
Proof.
  open_world w; unfold_methods; destruct b; split_cases; absent_unused.
Qed.

Lemma set_isEnabled_absentUnused ctx (b : bool) (w : World) :
  absentUnused ctx w -> absentUnused ctx (exec (set_isEnabled b) w).
Proof.
  open_world w; unfold_methods; destruct b; split_cases; absent_unused.
Qed.

Lemma zoomTo_absentUnused ctx (w : World) :
  absentUnused ctx w -> absentUnused ctx (exec zoomTo w).
Proof.
  open_world w; unfold_methods;
    destruct isEnabled0, isShown0, rectangle0 as [l0 |]; cbn;
    try (intro H; exact H);
    destruct (Number.gtb _ _); cbn; try absent_unused;
    destruct (Number.ltb _ _); cbn;
    destruct (Number.ltb _ _); cbn;
    absent_unused.
Qed.

Lemma perform_absentUnused ctx (c : Call) (w : World) :
  absentUnused ctx w -> absentUnused ctx (perform c w).
Proof.
  intro H. destruct c; cbn [perform].
  - rewrite toggleEnabled_exec. apply set_isEnabled_absentUnused, H.
  - rewrite toggleShown_exec. apply set_isShown_absentUnused, H.
  - exact H.
  - apply zoomTo_absentUnused, H.
  - apply set_isEnabled_absentUnused, H.
  - apply set_isShown_absentUnused, H.
  - exact H.
  - exact H.
Qed.

Lemma run_absentUnused ctx (calls : list Call) (w : World) :
  absentUnused ctx w -> absentUnused ctx (run calls w).
Proof.
  revert w. induction calls as [| c calls IH]; intros w H; cbn.
  - exact H.
  - apply IH, perform_absentUnused, H.
Qed.

(** X10: after the constructor and any sequence of calls, the collaborators
    hold what the flags say.  The item is in the "now viewing" list exactly
    when [isEnabled] is true; an engine that is present has the item enabled
    exactly when [isEnabled] is true and shown exactly when [isShown] is
    true; and an engine that is absent was never called: the trace holds no
    hook, flight or fit of bounds for it. *)
Theorem collaborators_in_step
    (ctx : GeoDataCatalogContext) (nm : string) (clk : nat -> Z)
    (calls : list Call) :
  let w := run calls (newWorld ctx nm clk) in
  let c := replay (trace w) in
  inNowViewing c = isEnabled (self w)
  /\ enabledInCesium c = (cesiumScene ctx && isEnabled (self w))%bool
  /\ shownInCesium c = (cesiumScene ctx && isShown (self w))%bool
  /\ enabledInLeaflet c = (leafletMap ctx && isEnabled (self w))%bool
  /\ shownInLeaflet c = (leafletMap ctx && isShown (self w))%bool
  /\ (if cesiumScene ctx then True
      else existsb onCesium (trace w) = false)
  /\ (if leafletMap ctx then True
      else existsb onLeaflet (trace w) = false).
Proof.
  cbv zeta.
  assert (H0 : inStep ctx (newWorld ctx nm clk)).
  { unfold inStep. cbn. rewrite !andb_false_r. repeat split. }
  assert (H1 : absentUnused ctx (newWorld ctx nm clk)).
  { unfold absentUnused. cbn.
    destruct (cesiumScene ctx), (leafletMap ctx); repeat split. }
  destruct (run_inStep ctx calls _ H0) as (_ & Ha & Hb & Hc & Hd & He).
  destruct (run_absentUnused ctx calls _ H1) as (_ & Hf & Hg).
  repeat split; assumption.
Qed.

Lemma set_isShown_stampsSet (b : bool) (w : World) :
  stampsSet w -> stampsSet (exec (set_isShown b) w).
Proof.
  unfold stampsSet.
  open_world w; unfold_methods; destruct b; split_cases;
    intros (H1 & H2); repeat split; try assumption; try reflexivity.
Qed.

Lemma set_isEnabled_stampsSet (b : bool) (w : World) :
  stampsSet w -> stampsSet (exec (set_isEnabled b) w).
Proof.
  unfold stampsSet.
  open_world w; unfold_methods; destruct b; split_cases;
    intros (H1 & H2); repeat split; try assumption; try reflexivity.
Qed.

Lemma perform_stampsSet (c : Call) (w : World) :
  stampsSet w -> stampsSet (perform c w).
Proof.
  intro H. destruct c; cbn [perform].
  - rewrite toggleEnabled_exec. apply set_isEnabled_stampsSet, H.
  - rewrite toggleShown_exec. apply set_isShown_stampsSet, H.
  - exact H.
  - unfold stampsSet. destruct (zoomTo_frame w) as (-> & _). exact H.
  - apply set_isEnabled_stampsSet, H.
  - apply set_isShown_stampsSet, H.
  - exact H.
  - exact H.
Qed.

Lemma run_stampsSet (calls : list Call) (w : World) :
  stampsSet w -> stampsSet (run calls w).
Proof.
  revert w. induction calls as [| c calls IH]; intros w H; cbn.
  - exact H.
  - apply IH, perform_stampsSet, H.
Qed.

(** X11: after the constructor and any sequence of calls, a view model that
    is shown has [_shownDate] set and one that is enabled has
    [_enabledDate] set.  So hiding a view model that is shown always sends
    "hidden" with a number, counted from [_shownDate]: the fallback to
    [_enabledDate] and the [undefined] duration never occur. *)
Theorem hidden_always_timed
    (ctx : GeoDataCatalogContext) (nm : string) (clk : nat -> Z)
    (calls : list Call) :
  let w := run calls (newWorld ctx nm clk) in
  implb (isShown (self w)) (Number.defined (_shownDate (self w))) = true
  /\ implb (isEnabled (self w)) (Number.defined (_enabledDate (self w)))
     = true
  /\ (if isShown (self w) then
        exists shown,
          _shownDate (self w) = Some shown
          /\ trace (exec toggleShown w) =
               trace w ++ shownHooks (context (self w)) false
               ++ [ga "hidden" (name (self w))
                     (Some (seconds (Number.elapsedSeconds
                                       (clock w (ticks w)) shown)))]
      else True).
Proof.
  cbv zeta.
  assert (H0 : stampsSet (newWorld ctx nm clk)) by (split; reflexivity).
  destruct (run_stampsSet calls _ H0) as (H1 & H2).
  split; [exact H1 | split; [exact H2 |]].
  destruct (isShown (self (run calls (newWorld ctx nm clk)))) eqn:Hs;
    [| exact I].
  destruct (_shownDate (self (run calls (newWorld ctx nm clk))))
    as [shown |] eqn:Hd; [| discriminate].
  exists shown. split; [reflexivity |].
  rewrite toggleShown_exec, Hs. cbn [negb].
  rewrite (hide_effect _ shown Hs Hd). reflexivity.
Qed.

(** ** More on zoomTo *)

(** Past both guards, [zoomTo] leaves in the scratch rectangle the padded
    copy of the bounds, hands it to the engines present, and changes
    nothing else. *)
Lemma zoomTo_passes (w : World) (l : loc) :
  isEnabled (self w) = true ->
  isShown (self w) = true ->
  rectangle (self w) = Some l ->
  Number.gtb (width (heap w l)) 3.14 = false ->
  let w' := exec zoomTo w in
  self w' = self w
  /\ trace w' = trace w ++ [ga "zoomTo" (name (self w)) None]
                        ++ flights (context (self w)) (padded (heap w l))
  /\ forall l', heap w' l'
                = store (heap w) scratchRectangle (padded (heap w l)) l'.
Proof.
  intros He Hs Hr Hw. unfold width in Hw.
  open_world w; subst; unfold_methods; unfold padded, flights;
    rewrite Hw; cbn; rewrite ?store_same; cbn;
    set (r := heap0 l) in *;
    destruct (Number.ltb (east r - west r) CesiumMath.EPSILON3) eqn:Hx;
    cbn; rewrite ?store_same; cbn;
    destruct (Number.ltb (north r - south r) CesiumMath.EPSILON3) eqn:Hy;
    cbn; rewrite ?store_same; cbn;
    rewrite <- ?app_assoc; cbn;
    (split; [reflexivity | split; [reflexivity |]]);
    intro l'; unfold store;
    destruct (Pos.eqb l' scratchRectangle); reflexivity.
Qed.

(** X12: padding does not pile up.  A second [zoomTo] on the same view
    model, whose rectangle is not the scratch object, leaves every rectangle
    of the heap, the scratch one included, as the first call left it, and
    makes the same calls with the same destination again. *)
Theorem zoomTo_twice (w : World) (l : loc) :
  rectangle (self w) = Some l ->
  l <> scratchRectangle ->
  let w1 := exec zoomTo w in
  let w2 := exec zoomTo w1 in
  (forall l', heap w2 l' = heap w1 l')
  /\ self w2 = self w
  /\ exists effects,
       trace w1 = trace w ++ effects /\ trace w2 = trace w1 ++ effects.
Proof.
  intros Hr Hl. cbv zeta.
  destruct (isEnabled (self w)) eqn:He;
    [destruct (isShown (self w)) eqn:Hs |].
  - destruct (Number.gtb (width (heap w l)) 3.14) eqn:Hw.
    + pose proof Hw as Hwide.
      unfold exec. rewrite (zoomTo_wide w l He Hs Hr Hwide). cbn [snd].
      match goal with
      | |- context [zoomTo ?w1] =>
          rewrite (zoomTo_wide w1 l He Hs Hr Hwide)
      end. cbn.
      repeat split. exists [console_log tooWide]. split; reflexivity.
    + destruct (zoomTo_passes w l He Hs Hr Hw) as (Hv & Ht & Hh).
      assert (Hsame : heap (exec zoomTo w) l = heap w l).
      { rewrite Hh. apply store_other, Hl. }
      assert (Hw1 : Number.gtb (width (heap (exec zoomTo w) l)) 3.14
                    = false) by (rewrite Hsame; exact Hw).
      destruct (zoomTo_passes (exec zoomTo w) l) as (Hv2 & Ht2 & Hh2);
        rewrite ?Hv; try assumption.
      rewrite Hsame, Hv in *. repeat split.
      * intro l'. rewrite Hh2. unfold store at 1.
        destruct (Pos.eqb_spec l' scratchRectangle) as [-> |];
          [| reflexivity].
        rewrite Hh, store_same. reflexivity.
      * rewrite Hv2. reflexivity.
      * eexists. split; [exact Ht | exact Ht2].
  - unfold exec. rewrite (zoomTo_guarded w) by tauto. cbn [snd].
    rewrite (zoomTo_guarded w) by tauto. cbn [snd].
    repeat split. exists []. rewrite app_nil_r. split; reflexivity.
  - unfold exec. rewrite (zoomTo_guarded w) by tauto. cbn [snd].
    rewrite (zoomTo_guarded w) by tauto. cbn [snd].
    repeat split. exists []. rewrite app_nil_r. split; reflexivity.
Qed.

Lemma zoomTo_twice_witness :
  let w := shownWith (mkContext true true) (mkRectangle 1 0 1 2) in
  heap (exec zoomTo (exec zoomTo w)) scratchRectangle
  = heap (exec zoomTo w) scratchRectangle.
Proof.
  cbv zeta.
  destruct (zoomTo_twice
              (shownWith (mkContext true true) (mkRectangle 1 0 1 2))
              3%positive eq_refl) as (Hh & _).
  - discriminate.
  - apply Hh.
Defined.

(** ** Durations *)

(** X15: for a clock that has not gone back and less than 2^31 seconds
    elapsed, the duration sent with an event is the number of whole seconds
    elapsed, rounded down: it is not negative and is within one second of
    the time elapsed. *)
Theorem elapsedSeconds_bounds (now t : Z) :
  0 <= now - t < 1000 * 2 ^ 31 ->
  let d := Number.elapsedSeconds now t in
  0 <= d /\ 1000 * d <= now - t < 1000 * d + 1000.
Proof.
  intro H. cbv zeta. rewrite (elapsedSeconds_whole now t H).
  pose proof (Z.div_mod (now - t) 1000 ltac:(lia)) as Hd.
  pose proof (Z.mod_pos_bound (now - t) 1000 ltac:(lia)) as Hm.
  split; [apply Z.div_pos; lia | lia].
Qed.

Lemma elapsedSeconds_bounds_witness :
  Number.elapsedSeconds 9999 1000 = 8
  /\ 0 <= Number.elapsedSeconds 9999 1000.
Proof.
  split; [reflexivity |].
  apply (elapsedSeconds_bounds 9999 1000). lia.
Defined.

Lemma perform_clock (c : Call) (w : World) : clock (perform c w) = clock w.
Proof.
  destruct c; cbn [perform].
  - rewrite toggleEnabled_exec. apply set_isEnabled_leaves.
  - rewrite toggleShown_exec. apply set_isShown_leaves.
  - reflexivity.
  - apply zoomTo_frame.
  - apply set_isEnabled_leaves.
  - apply set_isShown_leaves.
  - reflexivity.
  - reflexivity.
Qed.

Lemma run_clock (calls : list Call) (w : World) :
  clock (run calls w) = clock w.
Proof.
  revert w. induction calls as [| c calls IH]; intro w; cbn;
    [reflexivity |].
  rewrite IH. apply perform_clock.
Qed.

(** X16: with a clock that never reads 0, after the constructor and any
    sequence of calls, disabling a view model that is enabled always sends
    "removed" with a number, the whole seconds since the reading stamped
    into [_enabledDate]; the [undefined] duration never occurs. *)
Theorem removed_always_timed
    (ctx : GeoDataCatalogContext) (nm : string) (clk : nat -> Z)
    (calls : list Call) :
  (forall n, clk n <> 0) ->
  let w := run calls (newWorld ctx nm clk) in
  isEnabled (self w) = true ->
  exists enabled,
    _enabledDate (self w) = Some enabled
    /\ trace (exec toggleEnabled w) =
         trace w ++ enabledHooks (context (self w)) false
         ++ [nowViewing_remove;
             ga "removed" (name (self w))
               (Some (seconds (Number.elapsedSeconds
                                 (clock w (ticks w)) enabled)))].
Proof.
  intros Hclk. cbv zeta. intro He.
  set (w := run calls (newWorld ctx nm clk)) in *.
  assert (Hc : forall n, clock w n <> 0).
  { unfold w. rewrite run_clock. exact Hclk. }
  destruct (run_stamped calls _ (newWorld_stamped ctx nm clk) Hc)
    as (Hz & _).
  assert (H0 : stampsSet (newWorld ctx nm clk)) by (split; reflexivity).
  destruct (run_stampsSet calls _ H0) as (_ & Hd).
  fold w in Hz, Hd. rewrite He in Hd. cbn [implb] in Hd.
  destruct (_enabledDate (self w)) as [enabled |] eqn:E; [| discriminate].
  exists enabled. split; [reflexivity |].
  rewrite toggleEnabled_exec, He. cbn [negb].
  rewrite (disable_effect w enabled He E); [reflexivity | congruence].
Qed.

Lemma removed_always_timed_witness :
  let w := run [call_toggleEnabled; call_zoomTo]
               (newWorld (mkContext true false) "roads"
                         (fun n => 1000 + 3000 * Z.of_nat n)) in
  trace (exec toggleEnabled w)
  = trace w ++ [disableInCesium; nowViewing_remove;
                ga "removed" "roads" (Some (seconds 3))].
Proof.
  cbv zeta.
  destruct (removed_always_timed (mkContext true false) "roads"
              (fun n => 1000 + 3000 * Z.of_nat n)
              [call_toggleEnabled; call_zoomTo])
    as (enabled & He & Ht).
  - intro n. lia.
  - reflexivity.
  - rewrite Ht. injection He as <-. reflexivity.
Defined.
